(** * Flashcards: the [Deck] class of [task/flashcards/flashcards.py]

    A shallow embedding of the in-memory deck (three Python dictionaries
    kept side by side) and of its operations, followed by the properties
    of the deck that its specification states.

    Python dictionaries are insertion ordered, and the order is observable
    here: [import_deck] rebuilds the inverse index by iterating over
    [term_to_definition.items()], so with two equal definitions the later
    term wins, and [get_hardest_cards] and [get_all_cards] return lists in
    dictionary order.  A dictionary is therefore modelled as the list of
    its items in insertion order, not as an unordered finite map.

    Mistake counts are Python integers ([Z]); a snapshot may hold any.
    [get_random_card] (a draw from [random]) and the [Session] class (the
    prompt loop, the log and the files) are not modelled. *)

From Stdlib Require Import List String ZArith Bool Lia.
Import ListNotations.

Local Open Scope string_scope.
Local Open Scope Z_scope.
Local Open Scope list_scope.

(* ================================================================== *)
(** ** Python dictionaries with string keys *)

Module PyDict.

Section Ops.
Context {V : Type}.

(** The items of the dictionary, oldest first.  A dictionary built by
    the operations below never holds a key twice ([ok]). *)
Definition dict : Type := list (string * V).

Definition empty : dict := [].

Definition keys (d : dict) : list string := map fst d.
Definition values (d : dict) : list V := map snd d.
Definition items (d : dict) : list (string * V) := d.
Definition len (d : dict) : nat := List.length d.

(** [d.get(k)]: [None] where [d[k]] raises [KeyError]. *)
Fixpoint get (d : dict) (k : string) : option V :=
  match d with
  | [] => None
  | (k', v) :: r => if String.eqb k k' then Some v else get r k
  end.

(** [k in d] *)
Definition contains (d : dict) (k : string) : bool :=
  match get d k with Some _ => true | None => false end.

(** [d[k] = v]: an existing key keeps its place, a new one goes last. *)
Fixpoint set (d : dict) (k : string) (v : V) : dict :=
  match d with
  | [] => [(k, v)]
  | (k', v') :: r =>
      if String.eqb k k' then (k', v) :: r else (k', v') :: set r k v
  end.

(** [del d[k]]: [None] stands for the [KeyError] of an absent key. *)
Fixpoint del (d : dict) (k : string) : option dict :=
  match d with
  | [] => None
  | (k', v') :: r =>
      if String.eqb k k' then Some r
      else match del r k with
           | Some r' => Some ((k', v') :: r')
           | None => None
           end
  end.

(** A dict comprehension [{k: v for ...}] over the given stream of
    pairs: successive item assignments into a fresh dictionary. *)
Definition from_items (l : list (string * V)) : dict :=
  fold_left (fun acc kv => set acc (fst kv) (snd kv)) l empty.

(** [dict.fromkeys(ks, v)] *)
Definition fromkeys (ks : list string) (v : V) : dict :=
  fold_left (fun acc k => set acc k v) ks empty.

(** The representation invariant of a dictionary: no key twice. *)
Definition ok (d : dict) : Prop := NoDup (keys d).

Fixpoint distinct (l : list string) : bool :=
  match l with
  | [] => true
  | x :: r => negb (existsb (String.eqb x) r) && distinct r
  end.

Definition okb (d : dict) : bool := distinct (keys d).
End Ops.

Arguments dict V : clear implicits.

End PyDict.

Import PyDict.

(* ================================================================== *)
(** ** The deck and its exceptions *)

(** [Flashcard = namedtuple("Flashcard", "term definition")] *)
Record Flashcard : Type := mkFlashcard { term : string; definition : string }.

(** The three dictionaries of a [Deck] instance. *)
Record Deck : Type := mkDeck {
  term_to_definition : dict string;
  definition_to_term : dict string;
  term_to_mistakes : dict Z
}.

(** The arguments of a [KeyError].  The message of [insert_card],
    [f"Duplicate term or definition: {flashcard}"], is kept as its card;
    a failed subscript or [del] carries the missing key; [raise KeyError]
    carries nothing. *)
Inductive key_error_args : Type :=
| NoArgs
| MissingKey (k : string)
| Duplicate (flashcard : Flashcard).

(** The only exception the deck raises or catches. *)
Inductive exn : Type :=
| KeyError (args : key_error_args).

Inductive result (A : Type) : Type :=
| Ok (a : A)
| Raise (e : exn).
Arguments Ok {A} a.
Arguments Raise {A} e.

(** A method of [Deck]: it runs on [self], returns or raises, and leaves
    [self] in some state either way (an exception rolls nothing back). *)
Definition M (A : Type) : Type := Deck -> result A * Deck.

Definition ret {A} (a : A) : M A := fun self => (Ok a, self).

Definition raise {A} (e : exn) : M A := fun self => (Raise e, self).

Definition bind {A B} (m : M A) (k : A -> M B) : M B :=
  fun self =>
    match m self with
    | (Ok a, self') => k a self'
    | (Raise e, self') => (Raise e, self')
    end.

(** [try: body / except KeyError: handler] *)
Definition try_except {A} (body : M A) (handler : exn -> M A) : M A :=
  fun self =>
    match body self with
    | (Ok a, self') => (Ok a, self')
    | (Raise e, self') => handler e self'
    end.

Definition get_self : M Deck := fun self => (Ok self, self).

Notation "x <- m ;; k" := (bind m (fun x => k))
  (at level 61, m at next level, right associativity).
Notation "m ;; k" := (bind m (fun _ => k))
  (at level 61, right associativity).

(** [for x in l: body x] *)
Fixpoint for_each {A} (l : list A) (body : A -> M unit) : M unit :=
  match l with
  | [] => ret tt
  | x :: r => body x ;; for_each r body
  end.

(** A loop that updates a local variable [acc] at each round. *)
Fixpoint for_fold {A B} (l : list A) (acc : B) (body : B -> A -> M B) : M B :=
  match l with
  | [] => ret acc
  | x :: r => acc' <- body acc x ;; for_fold r acc' body
  end.

(** [d[k]] as an expression *)
Definition subscript {V} (d : dict V) (k : string) : M V :=
  match get d k with
  | Some v => ret v
  | None => raise (KeyError (MissingKey k))
  end.

(** Assignments to the attributes of [self]. *)
Definition put_term_to_definition (d : dict string) : M unit :=
  fun self => (Ok tt, mkDeck d (definition_to_term self) (term_to_mistakes self)).
Definition put_definition_to_term (d : dict string) : M unit :=
  fun self => (Ok tt, mkDeck (term_to_definition self) d (term_to_mistakes self)).
Definition put_term_to_mistakes (d : dict Z) : M unit :=
  fun self => (Ok tt, mkDeck (term_to_definition self) (definition_to_term self) d).

(** [self.term_to_definition[k] = v] and its two siblings *)
Definition set_term_to_definition (k v : string) : M unit :=
  self <- get_self ;; put_term_to_definition (set (term_to_definition self) k v).
Definition set_definition_to_term (k v : string) : M unit :=
  self <- get_self ;; put_definition_to_term (set (definition_to_term self) k v).
Definition set_term_to_mistakes (k : string) (v : Z) : M unit :=
  self <- get_self ;; put_term_to_mistakes (set (term_to_mistakes self) k v).

(** [del self.term_to_definition[k]] and its two siblings *)
Definition del_term_to_definition (k : string) : M unit :=
  self <- get_self ;;
  match del (term_to_definition self) k with
  | Some d => put_term_to_definition d
  | None => raise (KeyError (MissingKey k))
  end.
Definition del_definition_to_term (k : string) : M unit :=
  self <- get_self ;;
  match del (definition_to_term self) k with
  | Some d => put_definition_to_term d
  | None => raise (KeyError (MissingKey k))
  end.
Definition del_term_to_mistakes (k : string) : M unit :=
  self <- get_self ;;
  match del (term_to_mistakes self) k with
  | Some d => put_term_to_mistakes d
  | None => raise (KeyError (MissingKey k))
  end.

(* ================================================================== *)
(** ** The methods of [Deck] *)

(** [Deck()]: three empty dictionaries. *)
Definition empty_deck : Deck := mkDeck empty empty empty.

(** [__len__] *)
Definition deck_len (self : Deck) : nat := len (term_to_definition self).

Definition get_by_term (t : string) : M Flashcard :=
  self <- get_self ;;
  try_except
    (d <- subscript (term_to_definition self) t ;; ret (mkFlashcard t d))
    (fun _ => raise (KeyError NoArgs)).

Definition get_by_definition (d : string) : M Flashcard :=
  self <- get_self ;;
  try_except
    (t <- subscript (definition_to_term self) d ;; ret (mkFlashcard t d))
    (fun _ => raise (KeyError NoArgs)).

Definition get_all_cards : M (list Flashcard) :=
  self <- get_self ;;
  ret (map (fun '(t, d) => mkFlashcard t d) (items (term_to_definition self))).

Definition insert_card (flashcard : Flashcard) : M unit :=
  self <- get_self ;;
  if contains (term_to_definition self) (term flashcard)
     || contains (definition_to_term self) (definition flashcard)
  then raise (KeyError (Duplicate flashcard))
  else
    set_term_to_definition (term flashcard) (definition flashcard) ;;
    set_definition_to_term (definition flashcard) (term flashcard) ;;
    set_term_to_mistakes (term flashcard) 0.

Definition remove_card (flashcard : Flashcard) : M unit :=
  try_except
    (del_term_to_definition (term flashcard) ;;
     del_term_to_mistakes (term flashcard) ;;
     del_definition_to_term (definition flashcard))
    (fun _ => raise (KeyError NoArgs)).

(** The snapshot format: term -> (definition, stats). *)
Definition snapshot : Type := dict (string * Z).

Definition import_deck (json_string : snapshot) : M nat :=
  let imported_deck := json_string in
  self <- get_self ;;
  let old_term_to_definition := term_to_definition self in
  let old_term_to_stats := term_to_mistakes self in
  put_term_to_definition
    (from_items (map (fun '(t, (d, _)) => (t, d)) (items imported_deck))) ;;
  put_term_to_mistakes
    (from_items (map (fun '(t, (_, stats)) => (t, stats)) (items imported_deck))) ;;
  self <- get_self ;;
  put_definition_to_term
    (from_items (map (fun '(t, d) => (d, t)) (items (term_to_definition self)))) ;;
  for_each (items old_term_to_definition) (fun '(t, d) =>
    try_except
      (insert_card (mkFlashcard t d) ;;
       stats <- subscript old_term_to_stats t ;;
       set_term_to_mistakes t stats)
      (fun _ => ret tt)) ;;
  ret (len imported_deck).

Definition export_deck : M (snapshot * nat) :=
  self <- get_self ;;
  json_string <-
    for_fold (items (term_to_definition self)) empty (fun json_string '(t, d) =>
      stats <- subscript (term_to_mistakes self) t ;;
      ret (set json_string t (d, stats))) ;;
  let cards_exported := deck_len self in
  ret (json_string, cards_exported).

(** The second component is [answer], a term of the deck, or [None]. *)
Definition ask (flashcard : Flashcard) (answer : string) : M (bool * option string) :=
  if String.eqb answer (definition flashcard) then ret (true, Some answer)
  else
    self <- get_self ;;
    mistakes <- subscript (term_to_mistakes self) (term flashcard) ;;
    set_term_to_mistakes (term flashcard) (mistakes + 1) ;;
    self <- get_self ;;
    t <- try_except
           (t <- subscript (definition_to_term self) answer ;; ret (Some t))
           (fun _ => ret None) ;;
    ret (false, t).

(** [max(l, default=default)] on integers *)
Definition py_max (l : list Z) (default : Z) : Z :=
  match l with
  | [] => default
  | x :: r => fold_left Z.max r x
  end.

Definition get_hardest_cards : M (list string * Z) :=
  self <- get_self ;;
  let max_mistakes := py_max (values (term_to_mistakes self)) 0 in
  if max_mistakes =? 0 then ret ([], 0)
  else
    let hardest_cards :=
      map fst (filter (fun '(_, mistakes) => mistakes =? max_mistakes)
                      (items (term_to_mistakes self))) in
    ret (hardest_cards, max_mistakes).

Definition reset_stats : M unit :=
  self <- get_self ;;
  put_term_to_mistakes (fromkeys (keys (term_to_definition self)) 0).

(** [Deck(json_deck)]: an absent or empty snapshot is falsy and imports
    nothing. *)
Definition Deck_init (json_deck : option snapshot) : Deck :=
  match json_deck with
  | None | Some [] => empty_deck
  | Some j => snd (import_deck j empty_deck)
  end.

(* ================================================================== *)
(** ** The invariants of the deck *)

(** The two indices are inverse to each other. *)
Definition inverse (self : Deck) : Prop :=
  forall t d,
    get (term_to_definition self) t = Some d <->
    get (definition_to_term self) d = Some t.

(** Terms and mistake counts have the same keys. *)
Definition same_keys (self : Deck) : Prop :=
  forall t,
    contains (term_to_definition self) t = contains (term_to_mistakes self) t.

(** Each of the three attributes is a dictionary. *)
Definition dicts_ok (self : Deck) : Prop :=
  ok (term_to_definition self) /\
  ok (definition_to_term self) /\
  ok (term_to_mistakes self).

Record Deck_inv (self : Deck) : Prop := mkDeck_inv {
  inv_ok : dicts_ok self;
  inv_inverse : inverse self;
  inv_keys : same_keys self
}.

(** A decision procedure for [Deck_inv], see [Deck_invb_sound]. *)
Definition maps_to {V} (eqv : V -> V -> bool) (d : dict V) (k : string) (v : V) : bool :=
  match get d k with Some v' => eqv v' v | None => false end.

Definition inverseb (self : Deck) : bool :=
  forallb (fun '(t, d) => maps_to String.eqb (definition_to_term self) d t)
          (items (term_to_definition self))
  && forallb (fun '(d, t) => maps_to String.eqb (term_to_definition self) t d)
             (items (definition_to_term self)).

Definition same_keysb (self : Deck) : bool :=
  forallb (contains (term_to_mistakes self)) (keys (term_to_definition self))
  && forallb (contains (term_to_definition self)) (keys (term_to_mistakes self)).

Definition Deck_invb (self : Deck) : bool :=
  okb (term_to_definition self) && okb (definition_to_term self)
  && okb (term_to_mistakes self) && inverseb self && same_keysb self.

(** The card [(t, d)] with [m] mistakes is in the deck. *)
Definition has_card (self : Deck) (t d : string) (m : Z) : Prop :=
  get (term_to_definition self) t = Some d /\
  get (term_to_mistakes self) t = Some m.

(* ================================================================== *)
(** ** What [import_deck] computes, written out *)

Definition imported_terms (j : snapshot) : dict string :=
  map (fun '(t, (d, _)) => (t, d)) (items j).

Definition imported_stats (j : snapshot) : dict Z :=
  map (fun '(t, (_, stats)) => (t, stats)) (items j).

Definition swap_items (d : dict string) : list (string * string) :=
  map (fun '(t, d) => (d, t)) (items d).

(** The old card [(t, d)] meets an imported term or definition. *)
Definition collides (j : snapshot) (card : string * string) : bool :=
  existsb (String.eqb (fst card)) (keys (imported_terms j))
  || existsb (String.eqb (snd card)) (values (imported_terms j)).

(** The old cards that [import_deck] puts back, in their old order. *)
Definition survivors (j : snapshot) (old : dict string) : dict string :=
  filter (fun card => negb (collides j card)) (items old).

(** The count a card put back ends with: its old one, or the 0 of
    [insert_card] where it had none. *)
Definition restored (old_stats : dict Z) (t : string) : Z :=
  match get old_stats t with Some m => m | None => 0 end.

(** One round of the loop of [import_deck] as a function on states. *)
Definition reinsert (old_stats : dict Z) (self : Deck) (card : string * string) : Deck :=
  if contains (term_to_definition self) (fst card)
     || contains (definition_to_term self) (snd card)
  then self
  else mkDeck (set (term_to_definition self) (fst card) (snd card))
              (set (definition_to_term self) (snd card) (fst card))
              (set (term_to_mistakes self) (fst card) (restored old_stats (fst card))).

(* ================================================================== *)
(** ** Calls and reachable states *)

Inductive call : Type :=
| Insert_card (flashcard : Flashcard)
| Remove_card (flashcard : Flashcard)
| Import_deck (json_string : snapshot)
| Export_deck
| Ask (flashcard : Flashcard) (answer : string)
| Get_hardest_cards
| Reset_stats.

(** What is left of a call for the next one: the exception, if any, and
    the state. *)
Definition outcome {A} (r : result A * Deck) : option exn * Deck :=
  (match fst r with Ok _ => None | Raise e => Some e end, snd r).

Definition run (c : call) (self : Deck) : option exn * Deck :=
  match c with
  | Insert_card f => outcome (insert_card f self)
  | Remove_card f => outcome (remove_card f self)
  | Import_deck j => outcome (import_deck j self)
  | Export_deck => outcome (export_deck self)
  | Ask f answer => outcome (ask f answer self)
  | Get_hardest_cards => outcome (get_hardest_cards self)
  | Reset_stats => outcome (reset_stats self)
  end.

(** The arguments are Python values of the expected types: a snapshot is
    a dictionary. *)
Definition args_ok (c : call) : Prop :=
  match c with
  | Import_deck j => ok j
  | _ => True
  end.

(** The states a deck goes through from [Deck()], whatever the calls
    return or raise. *)
Inductive reachable : Deck -> Prop :=
| reach_init : reachable empty_deck
| reach_call c self : reachable self -> args_ok c -> reachable (snd (run c self)).

(** Arguments as the session passes them: a card to remove is a card of
    the deck ([get_by_term] made it), and a snapshot holds no definition
    twice (as every export of a deck under [Deck_inv]). *)
Definition args_sound (self : Deck) (c : call) : Prop :=
  match c with
  | Remove_card f =>
      get (term_to_definition self) (term f) = Some (definition f)
  | Import_deck j => ok j /\ NoDup (values (imported_terms j))
  | _ => True
  end.

(* ================================================================== *)
(** ** Decks and snapshots of the scenarios *)

(** [{"France": "Paris"}], no mistake yet. *)
Definition france_deck : Deck :=
  mkDeck [("France", "Paris")] [("Paris", "France")] [("France", 0)].

Definition france : Flashcard := mkFlashcard "France" "Paris".

(** [{"A": "1", "B": "2"}] with [a] and [b] mistakes. *)
Definition ab_deck (a b : Z) : Deck :=
  mkDeck [("A", "1"); ("B", "2")] [("1", "A"); ("2", "B")] [("A", a); ("B", b)].

(** [{"A": ["9", 3], "C": ["3", 0]}] *)
Definition ab_import : snapshot := [("A", ("9", 3)); ("C", ("3", 0))].

(** A snapshot with one definition under two terms:
    [{"A": ["x", 0], "B": ["x", 0]}]. *)
Definition twin_import : snapshot := [("A", ("x", 0)); ("B", ("x", 0))].

(** The deck that [Deck()] is after the import of [twin_import]. *)
Definition twin_deck : Deck :=
  mkDeck [("A", "x"); ("B", "x")] [("x", "B")] [("A", 0); ("B", 0)].

(** [{"A": ["x", 0], "B": ["x", 0], "C": ["y", 0]}] *)
Definition triple_import : snapshot :=
  [("A", ("x", 0)); ("B", ("x", 0)); ("C", ("y", 0))].

(** The deck that [Deck()] is after the import of [triple_import]. *)
Definition triple_deck : Deck :=
  mkDeck [("A", "x"); ("B", "x"); ("C", "y")] [("x", "B"); ("y", "C")]
         [("A", 0); ("B", 0); ("C", 0)].

(** [triple_deck] after the card of the term [A] has been removed: the
    card of [B] has lost its entry in the index. *)
Definition orphan_deck : Deck :=
  mkDeck [("B", "x"); ("C", "y")] [("y", "C")] [("B", 0); ("C", 0)].

(* ================================================================== *)
(** ** The draw and repeated answers *)

(** [random.choice(seq)] is [seq[i]] for the index [i] below [len(seq)]
    that the generator draws, and raises [IndexError] on an empty [seq].
    The draw is the argument [i]; [None] is the [IndexError]. *)
Definition random_choice {A} (i : nat) (seq : list A) : option A := nth_error seq i.

Definition get_random_card (i : nat) (self : Deck) : option Flashcard :=
  match random_choice i (items (term_to_definition self)) with
  | Some (t, d) => Some (mkFlashcard t d)
  | None => None
  end.

(** The deck after [ask] on one card with each of the answers in turn,
    whatever the calls return. *)
Definition ask_all (flashcard : Flashcard) (answers : list string) (self : Deck) : Deck :=
  fold_left (fun s answer => snd (ask flashcard answer s)) answers self.

(** The answers that [ask] counts as mistakes for the card. *)
Definition wrong_answers (flashcard : Flashcard) (answers : list string) : list string :=
  filter (fun answer => negb (String.eqb answer (definition flashcard))) answers.

(* ================================================================== *)
(** ** The session: [_add] and [_remove]

    Of a [Session] the model keeps the deck, what [print] wrote (one item
    per call) and the messages handed to the logger (without the time
    stamp the handler puts in front).  The standard input is the list of
    the lines still to come, each as [input().strip()] returns it; it is
    passed to a method and handed back.  Files and the command loop are
    not modelled. *)

Record Session : Type := mkSession {
  deck : Deck;
  stdout : list string;
  log : list string
}.

(** How a method of the session ends: it returns, [input()] finds the
    input at its end, or an exception of the deck reaches the caller. *)
Inductive ending (A : Type) : Type :=
| Returned (a : A)
| EOFError
| Uncaught (e : exn).
Arguments Returned {A} a.
Arguments EOFError {A}.
Arguments Uncaught {A} e.

(** The characters of code 34 (the double quote) and 10 (the new line). *)
Definition dquote : string := String (Ascii.ascii_of_nat 34) EmptyString.
Definition newline : string := String (Ascii.ascii_of_nat 10) EmptyString.

Definition with_deck (d : Deck) (s : Session) : Session :=
  mkSession d (stdout s) (log s).

(** [self.logger.debug(message)] *)
Definition logger_debug (message : string) (s : Session) : Session :=
  mkSession (deck s) (stdout s) (log s ++ [message]).

(** [print(message)]; [print()] is [print_line ""]. *)
Definition print_line (message : string) (s : Session) : Session :=
  mkSession (deck s) (stdout s ++ [message]) (log s).

Definition print_and_log (message : string) (s : Session) : Session :=
  print_line message (logger_debug message s).

(** The response, the input left and the session; no response when the
    input is at its end, after the prompt went out. *)
Definition get_input_and_log (message : string) (stdin : list string) (s : Session)
  : option string * list string * Session :=
  let s := print_line message (logger_debug message s) in
  match stdin with
  | [] => (None, [], s)
  | response :: rest => (Some response, rest, logger_debug response s)
  end.

Definition card_exists_message (t : string) : string :=
  "The card " ++ dquote ++ t ++ dquote ++ " already exists. Try again:".

Definition definition_exists_message (d : string) : string :=
  "The definition " ++ dquote ++ d ++ dquote ++ " already exists. Try again:" ++ newline.

(** The first [while True] of [_add]: as long as [get_by_term] finds the
    term, ask for another.  Each round reads one line (the body of
    [get_input_and_log], written out so that the recursion is on the
    input, see [retry_term_round]). *)
Fixpoint retry_term (t : string) (stdin : list string) (s : Session)
  : option string * list string * Session :=
  match fst (get_by_term t (deck s)) with
  | Raise _ => (Some t, stdin, s)
  | Ok _ =>
      let s := print_line (card_exists_message t)
                 (logger_debug (card_exists_message t) s) in
      match stdin with
      | [] => (None, [], s)
      | response :: rest => retry_term response rest (logger_debug response s)
      end
  end.

(** The second [while True] of [_add], on [get_by_definition]. *)
Fixpoint retry_definition (d : string) (stdin : list string) (s : Session)
  : option string * list string * Session :=
  match fst (get_by_definition d (deck s)) with
  | Raise _ => (Some d, stdin, s)
  | Ok _ =>
      let s := print_line (definition_exists_message d)
                 (logger_debug (definition_exists_message d) s) in
      match stdin with
      | [] => (None, [], s)
      | response :: rest => retry_definition response rest (logger_debug response s)
      end
  end.

Definition added_message (new_card : Flashcard) : string :=
  "The pair (" ++ dquote ++ term new_card ++ dquote ++ ":"
  ++ dquote ++ definition new_card ++ dquote ++ ") has been added.".

Definition _add (stdin : list string) (s : Session)
  : ending unit * list string * Session :=
  match get_input_and_log "The card:" stdin s with
  | (None, stdin, s) => (EOFError, stdin, s)
  | (Some t, stdin, s) =>
  match retry_term t stdin s with
  | (None, stdin, s) => (EOFError, stdin, s)
  | (Some t, stdin, s) =>
  match get_input_and_log "The definition of the card:" stdin s with
  | (None, stdin, s) => (EOFError, stdin, s)
  | (Some d, stdin, s) =>
  match retry_definition d stdin s with
  | (None, stdin, s) => (EOFError, stdin, s)
  | (Some d, stdin, s) =>
      let new_card := mkFlashcard t d in
      match insert_card new_card (deck s) with
      | (Raise e, self) => (Uncaught e, stdin, with_deck self s)
      | (Ok _, self) =>
          (Returned tt, stdin,
           print_line "" (print_and_log (added_message new_card) (with_deck self s)))
      end
  end end end end.

Definition removed_message : string := "The card has been removed".

Definition cannot_remove_message (t : string) : string :=
  "Can't remove " ++ dquote ++ t ++ dquote ++ ": there is no such card.".

Definition _remove (stdin : list string) (s : Session)
  : ending unit * list string * Session :=
  match get_input_and_log "Which card?" stdin s with
  | (None, stdin, s) => (EOFError, stdin, s)
  | (Some t, stdin, s) =>
      let s :=
        match (flashcard <- get_by_term t ;; remove_card flashcard) (deck s) with
        | (Ok _, self) => print_and_log removed_message (with_deck self s)
        | (Raise _, self) => print_and_log (cannot_remove_message t) (with_deck self s)
        end in
      (Returned tt, stdin, print_line "" s)
  end.

(** What a retry loop of [_add] leaves, for a loop that tests its answer
    with [found] on the deck. *)
Definition retry_result (found : Deck -> string -> bool) (first : string)
    (stdin : list string) (s : Session)
    (r : option string * list string * Session) : Prop :=
  let '(answer, rest, s') := r in
  deck s' = deck s /\
  match answer with
  | Some x =>
      found (deck s) x = false /\
      exists pre, first :: stdin = pre ++ x :: rest /\
                  forall y, In y pre -> found (deck s) y = true
  | None => rest = [] /\ forall y, In y (first :: stdin) -> found (deck s) y = true
  end.

(* ================================================================== *)
(** ** Facts on dictionaries *)

Module PyDictFacts.

Ltac string_cases k k' :=
  let E := fresh "E" in
  destruct (String.eqb k k') eqn:E;
  [apply String.eqb_eq in E; try subst | apply String.eqb_neq in E].

Section Facts.
Context {V : Type}.
Implicit Types (d : dict V) (k : string) (v : V).

Lemma existsb_eqb_In k (l : list string) :
  existsb (String.eqb k) l = true <-> In k l.
Proof.
  rewrite existsb_exists. split.
  - intros [x [Hx E]]. apply String.eqb_eq in E. now subst.
  - intros H. exists k. split; [exact H | apply String.eqb_refl].
Qed.

Lemma existsb_eqb_not_In k (l : list string) :
  existsb (String.eqb k) l = false <-> ~ In k l.
Proof.
  rewrite <- existsb_eqb_In. destruct (existsb _ l); split; congruence.
Qed.

Lemma distinct_NoDup (l : list string) : distinct l = true <-> NoDup l.
Proof.
  induction l as [|x r IH]; simpl.
  - split; [constructor | reflexivity].
  - rewrite andb_true_iff, negb_true_iff, existsb_eqb_not_In, IH.
    split.
    + intros [H1 H2]. now constructor.
    + intros H. inversion H; subst. now split.
Qed.

Lemma okb_ok d : okb d = true <-> ok d.
Proof. apply distinct_NoDup. Qed.

Lemma get_None d k : get d k = None <-> ~ In k (keys d).
Proof.
  induction d as [|[k' v'] r IH]; simpl.
  - tauto.
  - string_cases k k'.
    + split; [discriminate | intros H; exfalso; apply H; now left].
    + rewrite IH. split; [intros H [H1 | H1]; [congruence | tauto] | tauto].
Qed.

Lemma get_Some_In d k v : get d k = Some v -> In (k, v) d.
Proof.
  induction d as [|[k' v'] r IH]; simpl; [discriminate|].
  string_cases k k'.
  - intros [= ->]. now left.
  - intros H. right. now apply IH.
Qed.

Lemma In_get d k v : ok d -> In (k, v) d -> get d k = Some v.
Proof.
  unfold ok. induction d as [|[k' v'] r IH]; simpl; [tauto|].
  intros Hnd [H | H]; inversion Hnd; subst.
  - inversion H; subst. now rewrite String.eqb_refl.
  - string_cases k k'.
    + exfalso. apply H2. change k' with (fst (k', v)). now apply in_map.
    + now apply IH.
Qed.

Lemma get_In_iff d k v : ok d -> get d k = Some v <-> In (k, v) d.
Proof. intros H. split; [apply get_Some_In | now apply In_get]. Qed.

Lemma contains_In d k : contains d k = true <-> In k (keys d).
Proof.
  unfold contains. destruct (get d k) eqn:E.
  - split; [intros _ | reflexivity].
    apply get_Some_In in E. change k with (fst (k, v)). now apply in_map.
  - split; [discriminate|]. intros H. now apply get_None in E.
Qed.

Lemma contains_not_In d k : contains d k = false <-> ~ In k (keys d).
Proof.
  rewrite <- contains_In. destruct (contains d k); split; congruence.
Qed.

Lemma contains_existsb d k : contains d k = existsb (String.eqb k) (keys d).
Proof.
  destruct (existsb _ (keys d)) eqn:E.
  - now apply contains_In, existsb_eqb_In.
  - now apply contains_not_In, existsb_eqb_not_In.
Qed.

Lemma contains_false_get d k : contains d k = false <-> get d k = None.
Proof. unfold contains. destruct (get d k); split; congruence. Qed.

Lemma contains_true_get d k : contains d k = true <-> exists v, get d k = Some v.
Proof.
  unfold contains. destruct (get d k) as [v|].
  - split; [now exists v | reflexivity].
  - split; [discriminate | intros [v H]; discriminate].
Qed.

Lemma get_app d1 d2 k :
  get (d1 ++ d2) k = match get d1 k with Some v => Some v | None => get d2 k end.
Proof.
  induction d1 as [|[k' v'] r IH]; simpl; [reflexivity|].
  now destruct (String.eqb k k').
Qed.

Lemma contains_app d1 d2 k :
  contains (d1 ++ d2) k = contains d1 k || contains d2 k.
Proof. unfold contains. rewrite get_app. now destruct (get d1 k). Qed.

Lemma get_set_same d k v : get (set d k v) k = Some v.
Proof.
  induction d as [|[k' v'] r IH]; simpl.
  - now rewrite String.eqb_refl.
  - destruct (String.eqb k k') eqn:E; simpl; now rewrite E.
Qed.

Lemma get_set_other d k v k' : k' <> k -> get (set d k v) k' = get d k'.
Proof.
  intros Hne. induction d as [|[k0 v0] r IH]; simpl.
  - apply String.eqb_neq in Hne. now rewrite Hne.
  - string_cases k k0; simpl.
    + apply String.eqb_neq in Hne. now rewrite Hne.
    + now rewrite IH.
Qed.

Lemma contains_set d k v k' :
  contains (set d k v) k' = String.eqb k' k || contains d k'.
Proof.
  unfold contains. string_cases k' k; simpl.
  - now rewrite get_set_same.
  - now rewrite get_set_other.
Qed.

Lemma set_absent d k v : get d k = None -> set d k v = d ++ [(k, v)].
Proof.
  induction d as [|[k' v'] r IH]; simpl; [reflexivity|].
  destruct (String.eqb k k'); [discriminate|].
  intros H. now rewrite IH.
Qed.

Lemma set_set d k v v' : set (set d k v) k v' = set d k v'.
Proof.
  induction d as [|[k' v0] r IH]; simpl.
  - now rewrite String.eqb_refl.
  - destruct (String.eqb k k') eqn:E; simpl; rewrite E; [reflexivity|].
    now rewrite IH.
Qed.

Lemma keys_set_present d k v : contains d k = true -> keys (set d k v) = keys d.
Proof.
  unfold contains. induction d as [|[k' v'] r IH]; simpl; [discriminate|].
  destruct (String.eqb k k'); simpl; [reflexivity|].
  intros H. now rewrite (IH H).
Qed.

Lemma len_set_present d k v : contains d k = true -> len (set d k v) = len d.
Proof.
  intros H. unfold len.
  rewrite <- (length_map fst (set d k v)), <- (length_map fst d).
  change (map fst (set d k v)) with (keys (set d k v)).
  now rewrite keys_set_present.
Qed.

Lemma ok_set d k v : ok d -> ok (set d k v).
Proof.
  intros Hok. destruct (contains d k) eqn:E.
  - unfold ok. now rewrite keys_set_present.
  - apply contains_false_get in E. rewrite (set_absent _ _ _ E).
    unfold ok, keys. rewrite map_app. simpl.
    apply NoDup_app; [exact Hok | repeat constructor; simpl; tauto |].
    intros x Hx [<- | []]. now apply get_None in E.
Qed.

Lemma keys_filter (f : string * V -> bool) d k :
  In k (keys (filter f d)) -> In k (keys d).
Proof.
  unfold keys. rewrite !in_map_iff. intros [x [E H]]. exists x.
  apply filter_In in H. tauto.
Qed.

Lemma ok_filter (f : string * V -> bool) d : ok d -> ok (filter f d).
Proof.
  unfold ok. induction d as [|[k v] r IH]; simpl; intros H; [constructor|].
  inversion H; subst. destruct (f (k, v)); simpl; [|now apply IH].
  constructor; [|now apply IH].
  intros Hin. apply H2. now apply (keys_filter f).
Qed.

Lemma ok_app d1 d2 :
  ok d1 -> ok d2 -> (forall k, In k (keys d1) -> ~ In k (keys d2)) -> ok (d1 ++ d2).
Proof.
  intros H1 H2 H. unfold ok, keys. rewrite map_app. now apply NoDup_app.
Qed.

Lemma del_None d k : del d k = None <-> get d k = None.
Proof.
  induction d as [|[k' v'] r IH]; simpl; [tauto|].
  destruct (String.eqb k k'); [split; discriminate|].
  destruct (del r k); [|tauto].
  split; [discriminate|]. intros H. apply IH in H. discriminate.
Qed.

Lemma del_Some d k : contains d k = true -> exists d', del d k = Some d'.
Proof.
  intros H. destruct (del d k) as [d'|] eqn:E; [now exists d'|].
  apply del_None, contains_false_get in E. congruence.
Qed.

Lemma keys_del d k d' :
  del d k = Some d' -> forall k', In k' (keys d') -> In k' (keys d).
Proof.
  revert d'. induction d as [|[k0 v0] r IH]; simpl; [discriminate|].
  intros d'. destruct (String.eqb k k0).
  - intros [= <-] k' H. now right.
  - destruct (del r k) as [r'|]; [|discriminate].
    intros [= <-] k' [H | H]; [now left | right; now apply (IH r')].
Qed.

Lemma ok_del d k d' : ok d -> del d k = Some d' -> ok d'.
Proof.
  unfold ok. revert d'. induction d as [|[k0 v0] r IH]; simpl; [discriminate|].
  intros d' Hnd. inversion Hnd; subst. destruct (String.eqb k k0).
  - now intros [= <-].
  - destruct (del r k) as [r'|] eqn:E; [|discriminate].
    intros [= <-]. simpl. constructor; [|now apply IH].
    intros H. apply H1. now apply (keys_del r k r').
Qed.

Lemma get_del_other d k d' k' :
  del d k = Some d' -> k' <> k -> get d' k' = get d k'.
Proof.
  revert d'. induction d as [|[k0 v0] r IH]; simpl; [discriminate|].
  intros d'. string_cases k k0.
  - intros [= <-] Hne. apply String.eqb_neq in Hne. now rewrite Hne.
  - destruct (del r k) as [r'|]; [|discriminate].
    intros [= <-] Hne. simpl. destruct (String.eqb k' k0); [reflexivity|].
    now apply IH.
Qed.

Lemma get_del_same d k d' : ok d -> del d k = Some d' -> get d' k = None.
Proof.
  unfold ok. revert d'. induction d as [|[k0 v0] r IH]; simpl; [discriminate|].
  intros d' Hnd. inversion Hnd; subst. string_cases k k0.
  - intros [= <-]. now apply get_None.
  - destruct (del r k) as [r'|]; [|discriminate].
    intros [= <-]. simpl. apply String.eqb_neq in E. rewrite E. now apply IH.
Qed.

Lemma contains_del d k d' k' :
  ok d -> del d k = Some d' ->
  contains d' k' = negb (String.eqb k' k) && contains d k'.
Proof.
  intros Hok Hdel. unfold contains. string_cases k' k; simpl.
  - now rewrite (get_del_same _ _ _ Hok Hdel).
  - now rewrite (get_del_other _ _ _ _ Hdel E).
Qed.

Lemma len_del d k d' : del d k = Some d' -> len d = S (len d').
Proof.
  unfold len. revert d'. induction d as [|[k0 v0] r IH]; simpl; [discriminate|].
  intros d'. destruct (String.eqb k k0).
  - now intros [= <-].
  - destruct (del r k) as [r'|]; [|discriminate].
    intros [= <-]. simpl. now rewrite (IH r').
Qed.

(** Assignments of fresh, pairwise distinct keys append. *)
Lemma fold_set_fresh (l : list (string * V)) d :
  NoDup (map fst l) -> (forall k, In k (map fst l) -> ~ In k (keys d)) ->
  fold_left (fun acc kv => set acc (fst kv) (snd kv)) l d = d ++ l.
Proof.
  revert d. induction l as [|[k v] r IH]; simpl; intros d Hnd Hfresh.
  - now rewrite app_nil_r.
  - inversion Hnd; subst.
    rewrite set_absent by (apply get_None, Hfresh; now left).
    rewrite IH; [now rewrite <- app_assoc | assumption |].
    intros k' Hk'. unfold keys. rewrite map_app, in_app_iff. simpl.
    intros [H | [<- | []]]; [|tauto].
    apply (Hfresh k'); [now right | exact H].
Qed.

Lemma from_items_ok (l : list (string * V)) : NoDup (map fst l) -> from_items l = l.
Proof.
  intros H. unfold from_items. rewrite fold_set_fresh; [reflexivity | exact H |].
  intros k _ [].
Qed.

Lemma contains_fold_set (l : list (string * V)) d k :
  contains (fold_left (fun acc kv => set acc (fst kv) (snd kv)) l d) k
  = contains d k || existsb (String.eqb k) (map fst l).
Proof.
  revert d. induction l as [|[k0 v0] r IH]; simpl; intros d.
  - now rewrite orb_false_r.
  - rewrite IH, contains_set. simpl.
    destruct (String.eqb k k0), (contains d k); reflexivity.
Qed.

Lemma contains_from_items (l : list (string * V)) k :
  contains (from_items l) k = existsb (String.eqb k) (map fst l).
Proof. unfold from_items. now rewrite contains_fold_set. Qed.

Lemma ok_fold_set (l : list (string * V)) d :
  ok d -> ok (fold_left (fun acc kv => set acc (fst kv) (snd kv)) l d).
Proof.
  revert d. induction l as [|[k v] r IH]; simpl; intros d H; [exact H|].
  apply IH. now apply ok_set.
Qed.

Lemma ok_from_items (l : list (string * V)) : ok (from_items l).
Proof. apply ok_fold_set. constructor. Qed.

Lemma fold_fromkeys_get (ks : list string) v d k :
  get (fold_left (fun acc k => set acc k v) ks d) k
  = if existsb (String.eqb k) ks then Some v else get d k.
Proof.
  revert d. induction ks as [|k0 r IH]; simpl; intros d; [reflexivity|].
  rewrite IH. string_cases k k0; simpl.
  - rewrite get_set_same. now destruct (existsb _ r).
  - now rewrite get_set_other.
Qed.

Lemma get_fromkeys (ks : list string) v k :
  get (fromkeys ks v) k = if existsb (String.eqb k) ks then Some v else None.
Proof. unfold fromkeys. now rewrite fold_fromkeys_get. Qed.

Lemma fromkeys_items (ks : list string) v :
  NoDup ks -> fromkeys ks v = map (fun k => (k, v)) ks.
Proof.
  intros H. unfold fromkeys.
  assert (G : forall d, (forall k, In k ks -> ~ In k (keys d)) ->
            fold_left (fun acc k => set acc k v) ks d = d ++ map (fun k => (k, v)) ks).
  { induction H as [|k r Hk Hr IH]; simpl; intros d Hd.
    - now rewrite app_nil_r.
    - rewrite set_absent by (apply get_None, Hd; now left).
      rewrite IH; [now rewrite <- app_assoc|].
      intros k' Hk'. unfold keys. rewrite map_app, in_app_iff. simpl.
      intros [H1 | [<- | []]]; [|tauto].
      apply (Hd k'); [now right | exact H1]. }
  apply (G []). intros k _ [].
Qed.

Lemma values_fromkeys (ks : list string) v x :
  In x (values (fromkeys ks v)) -> x = v.
Proof.
  unfold fromkeys.
  assert (G : forall d, (forall y, In y (values d) -> y = v) ->
            forall y, In y (values (fold_left (fun acc k => set acc k v) ks d)) -> y = v).
  { induction ks as [|k r IH]; simpl; intros d Hd; [exact Hd|].
    apply IH. clear IH. induction d as [|[k0 v0] d IHd]; simpl.
    - intros y [<- | []]. reflexivity.
    - destruct (String.eqb k k0); simpl.
      + intros y [<- | H]; [reflexivity | apply Hd; now right].
      + intros y [<- | H]; [apply Hd; now left|].
        apply IHd; [|exact H]. intros z Hz. apply Hd. now right. }
  apply (G []). intros y [].
Qed.
End Facts.

End PyDictFacts.

Import PyDictFacts.

(* ================================================================== *)
(** ** The methods as equations *)

Ltac run_method :=
  cbv [bind ret raise get_self try_except subscript
       put_term_to_definition put_definition_to_term put_term_to_mistakes
       set_term_to_definition set_definition_to_term set_term_to_mistakes
       del_term_to_definition del_definition_to_term del_term_to_mistakes];
  cbn [term_to_definition definition_to_term term_to_mistakes fst snd].

Section Equations.
Variable self : Deck.

Lemma insert_card_eq flashcard :
  insert_card flashcard self =
  if contains (term_to_definition self) (term flashcard)
     || contains (definition_to_term self) (definition flashcard)
  then (Raise (KeyError (Duplicate flashcard)), self)
  else (Ok tt,
        mkDeck (set (term_to_definition self) (term flashcard) (definition flashcard))
               (set (definition_to_term self) (definition flashcard) (term flashcard))
               (set (term_to_mistakes self) (term flashcard) 0)).
Proof.
  unfold insert_card. run_method.
  now destruct (contains _ (term flashcard) || contains _ (definition flashcard)).
Qed.

Lemma remove_card_absent flashcard :
  get (term_to_definition self) (term flashcard) = None ->
  remove_card flashcard self = (Raise (KeyError NoArgs), self).
Proof.
  intros H. apply del_None in H.
  unfold remove_card. run_method. now rewrite H.
Qed.

(** All three deletions, in the order of the source. *)
Lemma remove_card_eq flashcard :
  remove_card flashcard self =
  match del (term_to_definition self) (term flashcard) with
  | None => (Raise (KeyError NoArgs), self)
  | Some t2d =>
      match del (term_to_mistakes self) (term flashcard) with
      | None =>
          (Raise (KeyError NoArgs),
           mkDeck t2d (definition_to_term self) (term_to_mistakes self))
      | Some t2m =>
          match del (definition_to_term self) (definition flashcard) with
          | None =>
              (Raise (KeyError NoArgs), mkDeck t2d (definition_to_term self) t2m)
          | Some d2t => (Ok tt, mkDeck t2d d2t t2m)
          end
      end
  end.
Proof.
  unfold remove_card. run_method.
  destruct (del (term_to_definition self) _); run_method; [|reflexivity].
  destruct (del (term_to_mistakes self) _); run_method; [|reflexivity].
  now destruct (del (definition_to_term self) _).
Qed.

Lemma ask_correct flashcard answer :
  answer = definition flashcard ->
  ask flashcard answer self = (Ok (true, Some answer), self).
Proof. intros ->. unfold ask. now rewrite String.eqb_refl. Qed.

Lemma ask_wrong flashcard answer :
  answer <> definition flashcard ->
  ask flashcard answer self =
  match get (term_to_mistakes self) (term flashcard) with
  | None => (Raise (KeyError (MissingKey (term flashcard))), self)
  | Some mistakes =>
      (Ok (false, get (definition_to_term self) answer),
       mkDeck (term_to_definition self) (definition_to_term self)
              (set (term_to_mistakes self) (term flashcard) (mistakes + 1)))
  end.
Proof.
  intros H. apply String.eqb_neq in H. unfold ask. rewrite H.
  run_method.
  destruct (get (term_to_mistakes self) _); run_method; [|reflexivity].
  now destruct (get (definition_to_term self) answer).
Qed.

Lemma get_hardest_cards_eq :
  get_hardest_cards self =
  (Ok (if py_max (values (term_to_mistakes self)) 0 =? 0 then ([], 0)
       else (map fst (filter (fun '(_, mistakes) =>
                                mistakes =? py_max (values (term_to_mistakes self)) 0)
                             (term_to_mistakes self)),
             py_max (values (term_to_mistakes self)) 0)),
   self).
Proof.
  unfold get_hardest_cards. run_method.
  now destruct (py_max _ 0 =? 0).
Qed.

Lemma reset_stats_eq :
  reset_stats self =
  (Ok tt, mkDeck (term_to_definition self) (definition_to_term self)
                 (fromkeys (keys (term_to_definition self)) 0)).
Proof. reflexivity. Qed.
End Equations.

(** The loop of [import_deck] runs [reinsert] on each old card. *)
Lemma reinsert_round old_stats t d self :
  try_except
    (insert_card (mkFlashcard t d) ;;
     stats <- subscript old_stats t ;;
     set_term_to_mistakes t stats)
    (fun _ => ret tt) self
  = (Ok tt, reinsert old_stats self (t, d)).
Proof.
  unfold try_except, bind. rewrite insert_card_eq. unfold reinsert, restored. simpl.
  destruct (contains _ t || contains _ d); [reflexivity|].
  unfold subscript. destruct (get old_stats t); simpl; [|reflexivity].
  now rewrite set_set.
Qed.

Lemma reinsert_loop old_stats (l : list (string * string)) self :
  for_each l (fun '(t, d) =>
    try_except
      (insert_card (mkFlashcard t d) ;;
       stats <- subscript old_stats t ;;
       set_term_to_mistakes t stats)
      (fun _ => ret tt)) self
  = (Ok tt, fold_left (reinsert old_stats) l self).
Proof.
  revert self. induction l as [|[t d] r IH]; intros self; [reflexivity|].
  simpl. unfold bind at 1. rewrite reinsert_round. apply IH.
Qed.

Lemma import_deck_eq (json_string : snapshot) self :
  import_deck json_string self =
  (Ok (len json_string),
   fold_left (reinsert (term_to_mistakes self)) (term_to_definition self)
     (mkDeck (from_items (imported_terms json_string))
             (from_items (swap_items (from_items (imported_terms json_string))))
             (from_items (imported_stats json_string)))).
Proof.
  unfold import_deck, bind at 1, get_self at 1.
  unfold bind at 1, put_term_to_definition at 1.
  unfold bind at 1, put_term_to_mistakes at 1.
  unfold bind at 1, get_self at 1.
  unfold bind at 1, put_definition_to_term at 1. cbn [term_to_definition
    definition_to_term term_to_mistakes].
  unfold bind at 1. rewrite reinsert_loop. reflexivity.
Qed.

(** The loop of [export_deck]: it fails at the first term without a
    count, and otherwise assigns one item per card. *)
Lemma export_loop (t2m : dict Z) (l : list (string * string)) acc self :
  (forall t, In t (map fst l) -> contains t2m t = true) ->
  for_fold l acc (fun json_string '(t, d) =>
      stats <- subscript t2m t ;;
      ret (set json_string t (d, stats))) self
  = (Ok (fold_left (fun a kv => set a (fst kv) (snd kv))
           (map (fun '(t, d) => (t, (d, restored t2m t))) l) acc), self).
Proof.
  revert acc. induction l as [|[t d] r IH]; intros acc H; [reflexivity|].
  simpl. unfold bind at 1. unfold bind at 1, subscript at 1, restored at 2.
  assert (Ht : contains t2m t = true) by (apply H; now left).
  apply contains_true_get in Ht. destruct Ht as [m Hm]. rewrite Hm. simpl.
  apply IH. intros t' Ht'. apply H. now right.
Qed.

Lemma export_deck_eq self :
  ok (term_to_definition self) ->
  (forall t, contains (term_to_definition self) t = true ->
             contains (term_to_mistakes self) t = true) ->
  export_deck self =
  (Ok (map (fun '(t, d) => (t, (d, restored (term_to_mistakes self) t)))
           (term_to_definition self),
       deck_len self), self).
Proof.
  intros Hok Hk. unfold export_deck, bind at 1, get_self at 1.
  unfold bind at 1. rewrite export_loop.
  - unfold ret. f_equal. f_equal. f_equal. apply from_items_ok.
    rewrite map_map. unfold ok, keys in Hok.
    erewrite map_ext; [exact Hok|]. now intros [t d].
  - intros t Ht. apply Hk. now apply contains_In.
Qed.

(** [export_deck] never assigns to [self]. *)
Lemma export_loop_state (t2m : dict Z) (l : list (string * string)) acc self :
  snd (for_fold l acc (fun json_string '(t, d) =>
         stats <- subscript t2m t ;;
         ret (set json_string t (d, stats))) self) = self.
Proof.
  revert acc. induction l as [|[t d] r IH]; intros acc; [reflexivity|].
  simpl. unfold bind at 1. unfold bind at 1, subscript at 1.
  destruct (get t2m t); simpl; [apply IH | reflexivity].
Qed.

Lemma export_deck_state self : snd (export_deck self) = self.
Proof.
  unfold export_deck, bind at 1, get_self at 1. unfold bind at 1.
  pose proof (export_loop_state (term_to_mistakes self)
                (items (term_to_definition self)) empty self) as H.
  destruct (for_fold _ _ _ self) as [[js|e] s]; simpl in *; now subst.
Qed.

(* ================================================================== *)
(** ** The invariants, decided *)

Lemma maps_to_eqb (d : dict string) k v :
  maps_to String.eqb d k v = true <-> get d k = Some v.
Proof.
  unfold maps_to. destruct (get d k) as [v'|].
  - rewrite String.eqb_eq. split; congruence.
  - split; discriminate.
Qed.

Lemma inverseb_sound self : inverseb self = true -> inverse self.
Proof.
  unfold inverseb, inverse, items. rewrite andb_true_iff, !forallb_forall.
  intros [H1 H2] t d. split; intros H; apply get_Some_In in H.
  - apply (H1 (t, d)) in H. now apply maps_to_eqb.
  - apply (H2 (d, t)) in H. now apply maps_to_eqb.
Qed.

Lemma same_keysb_sound self : same_keysb self = true -> same_keys self.
Proof.
  unfold same_keysb, same_keys. rewrite andb_true_iff, !forallb_forall.
  intros [H1 H2] t.
  destruct (contains (term_to_definition self) t) eqn:E1.
  - symmetry. now apply H1, contains_In.
  - destruct (contains (term_to_mistakes self) t) eqn:E2; [|reflexivity].
    apply contains_In, H2 in E2. congruence.
Qed.

Lemma Deck_invb_sound self : Deck_invb self = true -> Deck_inv self.
Proof.
  unfold Deck_invb. rewrite !andb_true_iff, !okb_ok.
  intros [[[[H1 H2] H3] H4] H5]. constructor.
  - now repeat split.
  - now apply inverseb_sound.
  - now apply same_keysb_sound.
Qed.

(** Under [inverse] a definition is a key of the index exactly when a
    term of the deck has it. *)
Lemma definition_known self d :
  inverse self ->
  contains (definition_to_term self) d = true <->
  exists t, get (term_to_definition self) t = Some d.
Proof.
  intros Hinv. rewrite contains_true_get. split; intros [t H]; exists t; now apply Hinv.
Qed.

(** Under [Deck_inv] no definition is held by two terms. *)
Lemma definitions_distinct self :
  Deck_inv self -> NoDup (values (term_to_definition self)).
Proof.
  intros [[Hok _] Hinv _]. unfold ok, keys, values in *.
  assert (G : forall l : dict string, NoDup (map fst l) ->
            (forall t t' d, In (t, d) l -> In (t', d) l -> t = t') ->
            NoDup (map snd l)).
  { induction l as [|[t d] r IH]; simpl; intros Hnd Hinj; [constructor|].
    inversion Hnd; subst. constructor.
    - intros Hin. apply in_map_iff in Hin. destruct Hin as [[t' d'] [E Hin]].
      simpl in E. subst d'. apply H1.
      rewrite (Hinj t t' d); [| now left | now right].
      change t' with (fst (t', d)). now apply in_map.
    - apply IH; [assumption|]. intros t1 t2 d0 Ha Hb.
      apply (Hinj t1 t2 d0); now right. }
  apply G; [exact Hok|]. intros t t' d Ha Hb.
  apply (In_get _ _ _ Hok), Hinv in Ha. apply (In_get _ _ _ Hok), Hinv in Hb.
  congruence.
Qed.

(* ================================================================== *)
(** ** [insert_card] and [remove_card] *)

(** C5.  [insert_card] raises its duplicate [KeyError] as soon as the
    term is a key of [term_to_definition] or the definition is a key of
    [definition_to_term], either one alone, and then leaves the deck as it
    was, size included; when neither is, it returns and the card is the
    last item of both indices, with mistake count 0, the counts of the
    other terms being kept and the size grown by one. *)
Theorem insert_card_spec (self : Deck) (flashcard : Flashcard) :
  (contains (term_to_definition self) (term flashcard) = true \/
   contains (definition_to_term self) (definition flashcard) = true ->
   insert_card flashcard self = (Raise (KeyError (Duplicate flashcard)), self) /\
   deck_len (snd (insert_card flashcard self)) = deck_len self)
  /\
  (contains (term_to_definition self) (term flashcard) = false ->
   contains (definition_to_term self) (definition flashcard) = false ->
   exists self',
     insert_card flashcard self = (Ok tt, self') /\
     term_to_definition self' =
       term_to_definition self ++ [(term flashcard, definition flashcard)] /\
     definition_to_term self' =
       definition_to_term self ++ [(definition flashcard, term flashcard)] /\
     get (term_to_definition self') (term flashcard) = Some (definition flashcard) /\
     get (definition_to_term self') (definition flashcard) = Some (term flashcard) /\
     get (term_to_mistakes self') (term flashcard) = Some 0 /\
     (forall t, t <> term flashcard ->
        get (term_to_mistakes self') t = get (term_to_mistakes self) t) /\
     deck_len self' = S (deck_len self)).
Proof.
  split.
  - intros H. rewrite insert_card_eq.
    assert (E : contains (term_to_definition self) (term flashcard)
                || contains (definition_to_term self) (definition flashcard) = true)
      by (apply orb_true_iff; exact H).
    rewrite E. now split.
  - intros H1 H2. rewrite insert_card_eq, H1, H2. simpl.
    eexists. split; [reflexivity|]. cbn [term_to_definition definition_to_term term_to_mistakes].
    apply contains_false_get in H1, H2.
    rewrite (set_absent _ _ _ H1), (set_absent _ _ _ H2).
    repeat split.
    + rewrite get_app, H1. simpl. now rewrite String.eqb_refl.
    + rewrite get_app, H2. simpl. now rewrite String.eqb_refl.
    + apply get_set_same.
    + intros t Ht. now apply get_set_other.
    + unfold deck_len, len. cbn [term_to_definition].
      rewrite length_app. simpl. lia.
Qed.

Lemma insert_card_spec_witness :
  insert_card (mkFlashcard "C" "2") (ab_deck 5 7)
  = (Raise (KeyError (Duplicate (mkFlashcard "C" "2"))), ab_deck 5 7) /\
  exists self',
    insert_card (mkFlashcard "C" "3") (ab_deck 5 7) = (Ok tt, self') /\
    get (term_to_mistakes self') "C" = Some 0.
Proof.
  split.
  - apply (proj1 (insert_card_spec (ab_deck 5 7) (mkFlashcard "C" "2"))).
    right. reflexivity.
  - destruct (proj2 (insert_card_spec (ab_deck 5 7) (mkFlashcard "C" "3"))
                eq_refl eq_refl) as [self' [H1 [_ [_ [_ [_ [H2 _]]]]]]].
    exists self'. split; [exact H1 | exact H2].
Defined.

(** C6.  Where the card's term is no key of [term_to_definition],
    [remove_card] raises the bare [KeyError] and all three dictionaries
    are as before the call. *)
Theorem remove_card_not_found (self : Deck) (flashcard : Flashcard) :
  contains (term_to_definition self) (term flashcard) = false ->
  remove_card flashcard self = (Raise (KeyError NoArgs), self).
Proof.
  intros H. apply remove_card_absent. now apply contains_false_get.
Qed.

Lemma remove_card_not_found_witness :
  remove_card (mkFlashcard "Z" "2") (ab_deck 5 7)
  = (Raise (KeyError NoArgs), ab_deck 5 7).
Proof. apply remove_card_not_found. reflexivity. Defined.

(* ================================================================== *)
(** ** [ask] *)

(** X20.  In a deck whose indices are inverse and whose terms all have a
    count, for a card whose term is in the deck: an answer equal to the
    card's definition returns [(True, answer)] and leaves every count as
    it was; any other answer adds exactly 1 to the count of the card's
    term and returns [False] with the term whose definition is the answer
    when there is one, and with [None] when no term has that definition.
    Equality is equality of strings. *)
Theorem ask_spec (self : Deck) (flashcard : Flashcard) (answer : string) :
  inverse self -> same_keys self ->
  contains (term_to_definition self) (term flashcard) = true ->
  (answer = definition flashcard ->
   ask flashcard answer self = (Ok (true, Some answer), self))
  /\
  (answer <> definition flashcard ->
   exists mistakes hint self',
     get (term_to_mistakes self) (term flashcard) = Some mistakes /\
     ask flashcard answer self = (Ok (false, hint), self') /\
     get (term_to_mistakes self') (term flashcard) = Some (mistakes + 1) /\
     (forall t, hint = Some t <-> get (term_to_definition self) t = Some answer) /\
     (hint = None <-> forall t, get (term_to_definition self) t <> Some answer)).
Proof.
  intros Hinv Hkeys Hin. split.
  - apply ask_correct.
  - intros Hne. rewrite Hkeys in Hin. apply contains_true_get in Hin.
    destruct Hin as [m Hm]. exists m, (get (definition_to_term self) answer).
    eexists. rewrite (ask_wrong _ _ _ Hne), Hm.
    split; [reflexivity|]. split; [reflexivity|].
    cbn [term_to_mistakes]. split; [apply get_set_same|]. split.
    + intros t. symmetry. apply Hinv.
    + split.
      * intros Hnone t Ht. apply Hinv in Ht. congruence.
      * intros Hall. destruct (get (definition_to_term self) answer) as [t|] eqn:E;
          [|reflexivity].
        apply Hinv in E. now apply Hall in E.
Qed.

Lemma ask_spec_witness :
  ask france "Paris" france_deck = (Ok (true, Some "Paris"), france_deck) /\
  exists self',
    ask france "Berlin" france_deck = (Ok (false, None), self') /\
    get (term_to_mistakes self') "France" = Some 1.
Proof.
  assert (Hinv : inverse france_deck) by (apply inverseb_sound; reflexivity).
  assert (Hkeys : same_keys france_deck) by (apply same_keysb_sound; reflexivity).
  split.
  - apply (proj1 (ask_spec france_deck france "Paris" Hinv Hkeys eq_refl)).
    reflexivity.
  - destruct (proj2 (ask_spec france_deck france "Berlin" Hinv Hkeys eq_refl))
      as [m [hint [self' [Hm [Hask [Hget _]]]]]]; [discriminate|].
    exists self'. injection Hm as <-. split; [|exact Hget].
    assert (E : hint = None) by (vm_compute in Hask; congruence).
    rewrite <- E. exact Hask.
Defined.

(** The scenario of the specification, three calls in a row. *)
Example ask_scenario :
  let r1 := ask france "Paris" france_deck in
  let r2 := ask france "Berlin" (snd r1) in
  let r3 := ask france "Paris" (snd r2) in
  fst r1 = Ok (true, Some "Paris") /\
  fst r2 = Ok (false, None) /\
  get (term_to_mistakes (snd r2)) "France" = Some 1 /\
  fst r3 = Ok (true, Some "Paris") /\
  snd r3 = snd r2.
Proof. repeat split. Qed.

(** [ask] keeps both indices and the keys of the counts. *)
Lemma ask_keeps_keys self flashcard answer :
  term_to_definition (snd (ask flashcard answer self)) = term_to_definition self /\
  definition_to_term (snd (ask flashcard answer self)) = definition_to_term self /\
  keys (term_to_mistakes (snd (ask flashcard answer self))) = keys (term_to_mistakes self).
Proof.
  destruct (string_dec answer (definition flashcard)) as [E | E].
  - rewrite (ask_correct _ _ _ E). now repeat split.
  - rewrite (ask_wrong _ _ _ E).
    destruct (get (term_to_mistakes self) (term flashcard)) as [m|] eqn:Hm; simpl.
    + split; [reflexivity|]. split; [reflexivity|].
      apply keys_set_present. apply contains_true_get. now exists m.
    + now repeat split.
Qed.

(** C10.  [ask] assigns to nothing but the count of the card's term: both
    indices, the keys of the counts and the count of every other term are
    as before, whatever the call returns or raises; and with the card's
    definition for answer the whole deck is as before. *)
Theorem ask_frame (self : Deck) (flashcard : Flashcard) (answer : string) :
  let self' := snd (ask flashcard answer self) in
  term_to_definition self' = term_to_definition self /\
  definition_to_term self' = definition_to_term self /\
  keys (term_to_mistakes self') = keys (term_to_mistakes self) /\
  (forall t, t <> term flashcard ->
     get (term_to_mistakes self') t = get (term_to_mistakes self) t) /\
  (answer = definition flashcard -> self' = self).
Proof.
  intros self'. subst self'.
  destruct (ask_keeps_keys self flashcard answer) as [ET [ED EK]].
  split; [exact ET|]. split; [exact ED|]. split; [exact EK|].
  destruct (string_dec answer (definition flashcard)) as [E | E].
  - rewrite (ask_correct _ _ _ E). simpl. split; [reflexivity | reflexivity].
  - rewrite (ask_wrong _ _ _ E). split; [|intros H; contradiction].
    intros t Ht.
    destruct (get (term_to_mistakes self) (term flashcard)) as [m|]; simpl;
      [now apply get_set_other | reflexivity].
Qed.

(* ================================================================== *)
(** ** [get_hardest_cards] and [reset_stats] *)

Lemma fold_max_ge (l : list Z) x : x <= fold_left Z.max l x.
Proof.
  revert x. induction l as [|y r IH]; simpl; intros x; [lia|].
  specialize (IH (Z.max x y)). lia.
Qed.

Lemma fold_max_upper (l : list Z) x m : In m l -> m <= fold_left Z.max l x.
Proof.
  revert x. induction l as [|y r IH]; simpl; intros x; [tauto|].
  intros [-> | H]; [|now apply IH].
  pose proof (fold_max_ge r (Z.max x m)). lia.
Qed.

Lemma fold_max_In (l : list Z) x : In (fold_left Z.max l x) (x :: l).
Proof.
  revert x. induction l as [|y r IH]; simpl; intros x; [now left|].
  destruct (IH (Z.max x y)) as [H | H]; [|right; now right].
  rewrite <- H.
  destruct (Z.max_spec x y) as [[_ E] | [_ E]]; rewrite E; [right|]; now left.
Qed.

(** [max(l, default=d)]: the default on the empty list, and else a
    member above all members. *)
Lemma py_max_spec (l : list Z) default :
  (l = [] -> py_max l default = default) /\
  (l <> [] -> In (py_max l default) l /\ forall m, In m l -> m <= py_max l default).
Proof.
  split; [now intros ->|]. destruct l as [|x r]; [congruence|]. intros _. simpl. split.
  - apply fold_max_In.
  - intros m [<- | H]; [apply fold_max_ge | now apply fold_max_upper].
Qed.

Lemma py_max_zeros (l : list Z) : (forall x, In x l -> x = 0) -> py_max l 0 = 0.
Proof.
  intros H. destruct l as [|x r]; [reflexivity|].
  destruct (py_max_spec (x :: r) 0) as [_ Hne].
  destruct Hne as [Hin _]; [discriminate|]. now apply H.
Qed.

(** C7.  [get_hardest_cards] takes the maximum of the counts, 0 for a
    deck without counts; when that maximum is 0 it returns the empty list
    and 0; otherwise it returns the maximum with the terms whose count is
    the maximum, all of them and no other (each once, in the order of the
    dictionary).  The deck is not touched. *)
Theorem get_hardest_cards_spec (self : Deck) :
  let max_mistakes := py_max (values (term_to_mistakes self)) 0 in
  (term_to_mistakes self = [] -> max_mistakes = 0) /\
  (term_to_mistakes self <> [] ->
     In max_mistakes (values (term_to_mistakes self)) /\
     forall m, In m (values (term_to_mistakes self)) -> m <= max_mistakes) /\
  (max_mistakes = 0 -> get_hardest_cards self = (Ok ([], 0), self)) /\
  (max_mistakes <> 0 ->
     exists terms,
       get_hardest_cards self = (Ok (terms, max_mistakes), self) /\
       (forall t, In t terms <-> In (t, max_mistakes) (items (term_to_mistakes self))) /\
       (ok (term_to_mistakes self) ->
          NoDup terms /\
          forall t, In t terms <-> get (term_to_mistakes self) t = Some max_mistakes)).
Proof.
  intros mx. subst mx. set (mx := py_max _ 0).
  destruct (py_max_spec (values (term_to_mistakes self)) 0) as [He Hne].
  split; [|split; [|split]].
  - intros E. apply He. unfold values. now rewrite E.
  - intros E. apply Hne. unfold values. destruct (term_to_mistakes self); [congruence|].
    discriminate.
  - intros E. rewrite get_hardest_cards_eq. fold mx. now rewrite E.
  - intros E. rewrite get_hardest_cards_eq. fold mx.
    apply Z.eqb_neq in E. rewrite E. eexists. split; [reflexivity|].
    assert (Hin : forall t,
      In t (map fst (filter (fun '(_, mistakes) => mistakes =? mx) (term_to_mistakes self)))
      <-> In (t, mx) (term_to_mistakes self)).
    { intros t. rewrite in_map_iff. split.
      - intros [[t' m] [Ht Hf]]. simpl in Ht. subst t'.
        apply filter_In in Hf. destruct Hf as [Hf Hm].
        apply Z.eqb_eq in Hm. now subst m.
      - intros H. exists (t, mx). split; [reflexivity|].
        apply filter_In. split; [exact H | apply Z.eqb_refl]. }
    split; [exact Hin|]. intros Hok. split.
    + now apply ok_filter.
    + intros t. rewrite Hin. symmetry. now apply get_In_iff.
Qed.

Lemma get_hardest_cards_spec_witness :
  get_hardest_cards (ab_deck 7 7) = (Ok (["A"; "B"], 7), ab_deck 7 7) /\
  get_hardest_cards empty_deck = (Ok ([], 0), empty_deck).
Proof.
  split.
  - destruct (get_hardest_cards_spec (ab_deck 7 7)) as [_ [_ [_ H]]].
    destruct H as [terms [H _]]; [discriminate|].
    assert (E : terms = ["A"; "B"]) by (vm_compute in H; congruence).
    rewrite <- E. exact H.
  - destruct (get_hardest_cards_spec empty_deck) as [_ [_ [H _]]].
    apply H. reflexivity.
Defined.

(** C9.  [reset_stats] returns; both indices are as before; the counts
    have the keys of [term_to_definition], each with 0; and the call of
    [get_hardest_cards] that follows returns the empty list and 0,
    whatever the counts were. *)
Theorem reset_stats_spec (self : Deck) :
  exists self',
    reset_stats self = (Ok tt, self') /\
    term_to_definition self' = term_to_definition self /\
    definition_to_term self' = definition_to_term self /\
    (forall t, contains (term_to_mistakes self') t = contains (term_to_definition self) t) /\
    (forall t, contains (term_to_definition self) t = true ->
               get (term_to_mistakes self') t = Some 0) /\
    (forall t m, get (term_to_mistakes self') t = Some m -> m = 0) /\
    get_hardest_cards self' = (Ok ([], 0), self').
Proof.
  eexists. split; [apply reset_stats_eq|].
  cbn [term_to_definition definition_to_term term_to_mistakes].
  assert (Hget : forall t,
    get (fromkeys (keys (term_to_definition self)) 0) t
    = if contains (term_to_definition self) t then Some 0 else None).
  { intros t. now rewrite get_fromkeys, contains_existsb. }
  repeat split.
  - intros t. unfold contains at 1. rewrite Hget.
    now destruct (contains (term_to_definition self) t).
  - intros t Ht. now rewrite Hget, Ht.
  - intros t m. rewrite Hget. destruct (contains _ t); congruence.
  - rewrite get_hardest_cards_eq. cbn [term_to_mistakes].
    rewrite py_max_zeros; [reflexivity|]. apply values_fromkeys.
Qed.

(** [reset_stats] after mistakes, on the deck of the scenario. *)
Example reset_stats_scenario :
  fst (get_hardest_cards (ab_deck 3 8)) = Ok (["B"], 8) /\
  fst (get_hardest_cards (snd (reset_stats (ab_deck 3 8)))) = Ok ([], 0).
Proof. split; reflexivity. Qed.

(* ================================================================== *)
(** ** [import_deck] *)

Lemma keys_imported_terms (j : snapshot) : keys (imported_terms j) = keys j.
Proof.
  unfold imported_terms, keys, items. rewrite map_map.
  apply map_ext. now intros [t [d m]].
Qed.

Lemma keys_imported_stats (j : snapshot) : keys (imported_stats j) = keys j.
Proof.
  unfold imported_stats, keys, items. rewrite map_map.
  apply map_ext. now intros [t [d m]].
Qed.

Lemma get_imported_terms (j : snapshot) t :
  get (imported_terms j) t = option_map fst (get j t).
Proof.
  induction j as [|[t' [d m]] r IH]; simpl; [reflexivity|].
  now destruct (String.eqb t t').
Qed.

Lemma get_imported_stats (j : snapshot) t :
  get (imported_stats j) t = option_map snd (get j t).
Proof.
  induction j as [|[t' [d m]] r IH]; simpl; [reflexivity|].
  now destruct (String.eqb t t').
Qed.

Lemma keys_swap_items (d : dict string) : keys (swap_items d) = values d.
Proof.
  unfold swap_items, keys, values, items. rewrite map_map.
  apply map_ext. now intros [t x].
Qed.

Lemma values_swap_items (d : dict string) : values (swap_items d) = keys d.
Proof.
  unfold swap_items, keys, values, items. rewrite map_map.
  apply map_ext. now intros [t x].
Qed.

Lemma swap_items_app (d1 d2 : dict string) :
  swap_items (d1 ++ d2) = swap_items d1 ++ swap_items d2.
Proof. unfold swap_items, items. apply map_app. Qed.

Lemma In_swap_items (d : dict string) t x : In (x, t) (swap_items d) <-> In (t, x) d.
Proof.
  unfold swap_items, items. rewrite in_map_iff. split.
  - intros [[t' x'] [E H]]. now injection E as <- <-.
  - intros H. now exists (t, x).
Qed.

(** The loop of [import_deck] from any state, over old cards that share
    neither a term nor a definition: a card goes back in exactly when it
    meets nothing of the state the loop started from. *)
Lemma reinsert_fold old_stats (l : dict string) : forall self,
  NoDup (keys l) -> NoDup (values l) ->
  let kept :=
    filter (fun card => negb (contains (term_to_definition self) (fst card)
                              || contains (definition_to_term self) (snd card))) l in
  fold_left (reinsert old_stats) l self =
  mkDeck (term_to_definition self ++ kept)
         (definition_to_term self ++ swap_items kept)
         (fold_left (fun acc kv => set acc (fst kv) (snd kv))
            (map (fun card => (fst card, restored old_stats (fst card))) kept)
            (term_to_mistakes self)).
Proof.
  induction l as [|[t d] r IH]; intros self Hk Hv kept; subst kept.
  - simpl. rewrite !app_nil_r. now destruct self.
  - unfold keys, values in Hk, Hv. simpl in Hk, Hv.
    inversion Hk as [|? ? Ht Hk']; inversion Hv as [|? ? Hd Hv']; subst.
    cbn [fold_left filter fst snd]. unfold reinsert at 2. cbn [fst snd].
    destruct (contains (term_to_definition self) t
              || contains (definition_to_term self) d) eqn:C; cbn [negb].
    + now apply IH.
    + apply orb_false_iff in C. destruct C as [C1 C2].
      apply contains_false_get in C1, C2.
      rewrite IH by assumption.
      cbn [term_to_definition definition_to_term term_to_mistakes].
      rewrite (set_absent _ _ _ C1), (set_absent _ _ _ C2).
      rewrite (filter_ext_in
                 (fun card => negb (contains (term_to_definition self ++ [(t, d)]) (fst card)
                                    || contains (definition_to_term self ++ [(d, t)]) (snd card)))
                 (fun card => negb (contains (term_to_definition self) (fst card)
                                    || contains (definition_to_term self) (snd card)))).
      * cbn [map fold_left fst snd swap_items items].
        unfold swap_items, items. now rewrite <- !app_assoc.
      * intros [t' d'] Hin. cbn [fst snd]. rewrite !contains_app.
        assert (E1 : contains [(t, d)] t' = false).
        { apply contains_not_In. simpl. intros [<- | []]. apply Ht.
          change t with (fst (t, d')). now apply in_map. }
        assert (E2 : contains [(d, t)] d' = false).
        { apply contains_not_In. simpl. intros [<- | []]. apply Hd.
          change d with (snd (t', d)). now apply in_map. }
        now rewrite E1, E2, !orb_false_r.
Qed.

(** The keys of the old cards put back. *)
Lemma survivors_fresh (j : snapshot) (old : dict string) t :
  In t (keys (survivors j old)) -> ~ In t (keys (imported_terms j)).
Proof.
  unfold survivors, keys at 1, items. rewrite in_map_iff.
  intros [[t' d] [E H]]. simpl in E. subst t'. apply filter_In in H.
  destruct H as [_ H]. apply negb_true_iff, orb_false_iff in H.
  destruct H as [H _]. now apply existsb_eqb_not_In in H.
Qed.

Lemma survivors_fresh_definition (j : snapshot) (old : dict string) d :
  In d (values (survivors j old)) -> ~ In d (values (imported_terms j)).
Proof.
  unfold survivors, values at 1, items. rewrite in_map_iff.
  intros [[t d'] [E H]]. simpl in E. subst d'. apply filter_In in H.
  destruct H as [_ H]. apply negb_true_iff, orb_false_iff in H.
  destruct H as [_ H]. now apply existsb_eqb_not_In in H.
Qed.

(** The state [import_deck] ends in, as three lists. *)
Lemma import_deck_state (j : snapshot) self :
  ok j -> ok (term_to_definition self) -> NoDup (values (term_to_definition self)) ->
  import_deck j self =
  (Ok (len j),
   mkDeck (imported_terms j ++ survivors j (term_to_definition self))
          (from_items (swap_items (imported_terms j))
             ++ swap_items (survivors j (term_to_definition self)))
          (imported_stats j
             ++ map (fun card => (fst card, restored (term_to_mistakes self) (fst card)))
                    (survivors j (term_to_definition self)))).
Proof.
  intros Hj Hold Hdefs. rewrite import_deck_eq.
  assert (Et : from_items (imported_terms j) = imported_terms j).
  { apply from_items_ok. fold (keys (imported_terms j)).
    now rewrite keys_imported_terms. }
  assert (Es : from_items (imported_stats j) = imported_stats j).
  { apply from_items_ok. fold (keys (imported_stats j)).
    now rewrite keys_imported_stats. }
  rewrite Et, Es, reinsert_fold by assumption.
  cbn [term_to_definition definition_to_term term_to_mistakes].
  assert (Ef : filter (fun card =>
                  negb (contains (imported_terms j) (fst card)
                        || contains (from_items (swap_items (imported_terms j))) (snd card)))
                 (term_to_definition self)
               = survivors j (term_to_definition self)).
  { unfold survivors, items. apply filter_ext. intros [t d]. unfold collides.
    cbn [fst snd]. rewrite contains_existsb, contains_from_items.
    fold (keys (swap_items (imported_terms j))). now rewrite keys_swap_items. }
  rewrite Ef. f_equal. f_equal. apply fold_set_fresh.
  - rewrite map_map. cbn [fst].
    apply (ok_filter (fun card => negb (collides j card)) _ Hold).
  - intros t. rewrite map_map. cbn [fst]. rewrite keys_imported_stats.
    intros H. apply survivors_fresh in H. now rewrite keys_imported_terms in H.
Qed.

Lemma NoDup_map_filter {A B} (g : A -> B) (f : A -> bool) (l : list A) :
  NoDup (map g l) -> NoDup (map g (filter f l)).
Proof.
  induction l as [|x r IH]; simpl; intros H; [constructor|].
  inversion H; subst. destruct (f x); simpl; [|now apply IH].
  constructor; [|now apply IH].
  intros Hin. apply H2. apply in_map_iff in Hin. destruct Hin as [y [E Hy]].
  apply filter_In in Hy. rewrite <- E. apply in_map. tauto.
Qed.

Lemma get_fold_set_In {V} (l : list (string * V)) (d : dict V) k v :
  get (fold_left (fun acc kv => set acc (fst kv) (snd kv)) l d) k = Some v ->
  In (k, v) l \/ get d k = Some v.
Proof.
  revert d. induction l as [|[k0 v0] r IH]; simpl; intros d H; [now right|].
  apply IH in H. destruct H as [H | H]; [left; now right|].
  string_cases k k0.
  - rewrite get_set_same in H. injection H as ->. left. now left.
  - rewrite get_set_other in H by assumption. now right.
Qed.

Lemma get_from_items_In {V} (l : list (string * V)) k v :
  get (from_items l) k = Some v -> In (k, v) l.
Proof.
  intros H. apply get_fold_set_In in H. destruct H as [H | H]; [exact H | discriminate].
Qed.

Lemma collides_false (j : snapshot) t d :
  collides j (t, d) = false <->
  get (imported_terms j) t = None /\ ~ In d (values (imported_terms j)).
Proof.
  unfold collides. cbn [fst snd].
  rewrite orb_false_iff, !existsb_eqb_not_In, get_None. tauto.
Qed.

(** X19.  For a snapshot (a dictionary) and a deck whose terms have
    pairwise distinct definitions, [import_deck] returns the number of
    items of the snapshot and leaves: the imported cards with their
    imported counts, in the order of the snapshot; the inverse index
    rebuilt from them; and after them the old cards that meet no imported
    term and no imported definition, in their old order, each with the
    count it had.  An old card that meets an imported term or definition
    is not put back: its term holds what the snapshot gives it, or
    nothing. *)
Theorem import_deck_spec (self : Deck) (json_string : snapshot) :
  ok json_string ->
  ok (term_to_definition self) ->
  NoDup (values (term_to_definition self)) ->
  exists self',
    import_deck json_string self = (Ok (len json_string), self') /\
    term_to_definition self' =
      imported_terms json_string ++ survivors json_string (term_to_definition self) /\
    definition_to_term self' =
      from_items (swap_items (imported_terms json_string))
      ++ swap_items (survivors json_string (term_to_definition self)) /\
    term_to_mistakes self' =
      imported_stats json_string
      ++ map (fun card => (fst card, restored (term_to_mistakes self) (fst card)))
             (survivors json_string (term_to_definition self)) /\
    (forall t d m, get json_string t = Some (d, m) ->
       get (term_to_definition self') t = Some d /\
       get (term_to_mistakes self') t = Some m) /\
    (forall d, In d (values (imported_terms json_string)) ->
       exists t, get (definition_to_term self') d = Some t /\
                 get (term_to_definition self') t = Some d) /\
    (forall t d, get (term_to_definition self) t = Some d ->
       collides json_string (t, d) = false ->
       get (term_to_definition self') t = Some d /\
       get (definition_to_term self') d = Some t /\
       get (term_to_mistakes self') t = Some (restored (term_to_mistakes self) t) /\
       (forall m, get (term_to_mistakes self) t = Some m ->
                  get (term_to_mistakes self') t = Some m)) /\
    (forall t d, get (term_to_definition self) t = Some d ->
       collides json_string (t, d) = true ->
       get (term_to_definition self') t = get (imported_terms json_string) t /\
       get (term_to_mistakes self') t = get (imported_stats json_string) t) /\
    (forall t d, get (term_to_definition self') t = Some d ->
       get (imported_terms json_string) t = Some d \/
       (get (term_to_definition self) t = Some d /\
        collides json_string (t, d) = false)).
Proof.
  intros Hj Hold Hdefs. eexists. split; [now apply import_deck_state|].
  cbn [term_to_definition definition_to_term term_to_mistakes].
  set (imp := imported_terms json_string).
  set (old := term_to_definition self).
  set (kept := survivors json_string old).
  set (counts := map (fun card => (fst card, restored (term_to_mistakes self) (fst card))) kept).
  assert (Hkept : ok kept) by (now apply ok_filter).
  assert (Hcounts_keys : keys counts = keys kept).
  { unfold counts, keys. rewrite map_map. reflexivity. }
  assert (Hin_kept : forall t d, In (t, d) kept <->
            In (t, d) old /\ collides json_string (t, d) = false).
  { intros t d. unfold kept, survivors, items. rewrite filter_In, negb_true_iff. tauto. }
  assert (Hstats_none : forall t, get imp t = None ->
            get (imported_stats json_string) t = None).
  { intros t. rewrite !get_None. unfold imp.
    now rewrite keys_imported_terms, keys_imported_stats. }
  split; [reflexivity|]. split; [reflexivity|]. split; [reflexivity|].
  split; [|split; [|split; [|split]]].
  - intros t d m H. rewrite !get_app. unfold imp.
    now rewrite get_imported_terms, get_imported_stats, H.
  - intros d Hd.
    assert (Hc : contains (from_items (swap_items imp)) d = true).
    { rewrite contains_from_items. fold (keys (swap_items imp)).
      rewrite keys_swap_items. now apply existsb_eqb_In. }
    apply contains_true_get in Hc. destruct Hc as [t Ht]. exists t.
    rewrite !get_app, Ht. split; [reflexivity|].
    apply get_from_items_In in Ht. apply (proj1 (In_swap_items _ _ _)) in Ht.
    rewrite (In_get imp t d); [reflexivity | | exact Ht].
    unfold ok, imp. now rewrite keys_imported_terms.
  - intros t d Hget Hc.
    assert (Hk : In (t, d) kept) by (apply Hin_kept; split;
      [now apply get_Some_In | exact Hc]).
    apply collides_false in Hc. destruct Hc as [Hc1 Hc2]. fold imp in Hc1, Hc2.
    assert (Hm : get (imported_stats json_string ++ counts) t
                 = Some (restored (term_to_mistakes self) t)).
    { rewrite get_app, (Hstats_none _ Hc1). apply In_get.
      - unfold ok. now rewrite Hcounts_keys.
      - unfold counts. apply in_map_iff. now exists (t, d). }
    split; [|split; [|split]].
    + rewrite get_app, Hc1. now apply In_get.
    + rewrite get_app.
      assert (E : get (from_items (swap_items imp)) d = None).
      { apply contains_false_get. rewrite contains_from_items.
        fold (keys (swap_items imp)). rewrite keys_swap_items.
        now apply existsb_eqb_not_In. }
      rewrite E. apply In_get; [|now apply In_swap_items].
      unfold ok. rewrite keys_swap_items.
      now apply (NoDup_map_filter snd).
    + exact Hm.
    + intros m Hold_m. rewrite Hm. unfold restored. now rewrite Hold_m.
  - intros t d Hget Hc.
    assert (Hnk : ~ In t (keys kept)).
    { intros Hin. unfold keys in Hin. apply in_map_iff in Hin.
      destruct Hin as [[t' d'] [E Hin]]. simpl in E. subst t'.
      apply Hin_kept in Hin. destruct Hin as [Hin Hc'].
      apply (In_get old _ _ Hold) in Hin. fold old in Hget.
      assert (d' = d) by congruence. subst d'. congruence. }
    rewrite !get_app. split.
    + destruct (get imp t); [reflexivity|]. now apply get_None.
    + destruct (get (imported_stats json_string) t); [reflexivity|].
      apply get_None. now rewrite Hcounts_keys.
  - intros t d. rewrite get_app. destruct (get imp t) as [d'|] eqn:E.
    + intros H. now left.
    + intros H. right. apply get_Some_In, Hin_kept in H. destruct H as [H1 H2].
      split; [now apply In_get | exact H2].
Qed.

(** The scenario of the specification, at old counts 5 and 7. *)
Lemma import_deck_spec_witness :
  import_deck ab_import (ab_deck 5 7)
  = (Ok 2%nat,
     mkDeck [("A", "9"); ("C", "3"); ("B", "2")]
            [("9", "A"); ("3", "C"); ("2", "B")]
            [("A", 3); ("C", 0); ("B", 7)]).
Proof.
  assert (H1 : ok ab_import) by (apply okb_ok; reflexivity).
  assert (H2 : ok (term_to_definition (ab_deck 5 7))) by (apply okb_ok; reflexivity).
  assert (H3 : NoDup (values (term_to_definition (ab_deck 5 7))))
    by (apply distinct_NoDup; reflexivity).
  destruct (import_deck_spec (ab_deck 5 7) ab_import H1 H2 H3)
    as [self' [Himp [Ht [Hd [Hm _]]]]].
  rewrite Himp. f_equal. destruct self' as [t2d d2t t2m]. simpl in Ht, Hd, Hm.
  now subst.
Defined.

(** The same scenario at any old counts: [B] keeps its own. *)
Example import_deck_scenario (a b : Z) :
  import_deck ab_import (ab_deck a b)
  = (Ok 2%nat,
     mkDeck [("A", "9"); ("C", "3"); ("B", "2")]
            [("9", "A"); ("3", "C"); ("2", "B")]
            [("A", 3); ("C", 0); ("B", b)]).
Proof. reflexivity. Qed.

(* ================================================================== *)
(** ** [export_deck], then [import_deck] into [Deck()] *)

Lemma get_map_keyed {V W} (f : string -> W) (l : dict V) t :
  get (map (fun card => (fst card, f (fst card))) l) t
  = if contains l t then Some (f t) else None.
Proof.
  unfold contains. induction l as [|[k v] r IH]; simpl; [reflexivity|].
  string_cases t k; [reflexivity | exact IH].
Qed.

Lemma same_keys_subset self t :
  same_keys self ->
  contains (term_to_definition self) t = true ->
  contains (term_to_mistakes self) t = true.
Proof. intros H E. now rewrite <- H. Qed.

(** The snapshot [export_deck] makes of a deck under [Deck_inv]. *)
Lemma export_deck_inv self :
  Deck_inv self ->
  export_deck self =
  (Ok (map (fun '(t, d) => (t, (d, restored (term_to_mistakes self) t)))
           (term_to_definition self),
       deck_len self), self).
Proof.
  intros [[Hok _] _ Hkeys]. apply export_deck_eq; [exact Hok|].
  intros t. now apply same_keys_subset.
Qed.

(** C8.  A deck under [Deck_inv] exports a snapshot, with its size; that
    snapshot imported into [Deck()] gives a deck with the same cards:
    the same (term, definition, count) triples, and indeed the same
    [term_to_definition], the same count under every term and the same
    term under every definition.  The new deck is under [Deck_inv] and
    exports the same snapshot again. *)
Theorem export_import_roundtrip (self : Deck) :
  Deck_inv self ->
  exists (json_string : snapshot) (self' : Deck),
    export_deck self = (Ok (json_string, deck_len self), self) /\
    import_deck json_string empty_deck = (Ok (deck_len self), self') /\
    (forall t d m, has_card self' t d m <-> has_card self t d m) /\
    term_to_definition self' = term_to_definition self /\
    (forall t, get (term_to_mistakes self') t = get (term_to_mistakes self) t) /\
    (forall d, get (definition_to_term self') d = get (definition_to_term self) d) /\
    Deck_inv self' /\
    export_deck self' = (Ok (json_string, deck_len self), self').
Proof.
  intros Hinv. pose proof (definitions_distinct self Hinv) as Hdefs.
  pose proof (export_deck_inv self Hinv) as Hexp.
  destruct Hinv as [[Hok1 [Hok2 Hok3]] Hinverse Hkeys].
  set (t2d := term_to_definition self) in *.
  set (t2m := term_to_mistakes self) in *.
  set (snap := map (fun '(t, d) => (t, (d, restored t2m t))) t2d) in *.
  assert (Eterms : imported_terms snap = t2d).
  { unfold imported_terms, snap, items. rewrite map_map.
    rewrite <- (map_id t2d) at 2. apply map_ext. now intros [t d]. }
  assert (Estats : imported_stats snap
                   = map (fun card => (fst card, restored t2m (fst card))) t2d).
  { unfold imported_stats, snap, items. rewrite map_map.
    apply map_ext. now intros [t d]. }
  assert (Hsnap : ok snap).
  { unfold ok. now rewrite <- keys_imported_terms, Eterms. }
  assert (Eswap : from_items (swap_items t2d) = swap_items t2d).
  { apply from_items_ok. fold (keys (swap_items t2d)). now rewrite keys_swap_items. }
  assert (Hlen : len snap = deck_len self).
  { unfold len, snap, deck_len, len. apply length_map. }
  exists snap. eexists. split; [exact Hexp|].
  split.
  { rewrite import_deck_state; [rewrite Hlen; reflexivity | exact Hsnap | constructor..]. }
  cbn [term_to_definition definition_to_term term_to_mistakes empty_deck survivors
       items filter swap_items map empty].
  rewrite !app_nil_r, Eterms, Estats, Eswap.
  assert (Gm : forall t,
    get (map (fun card => (fst card, restored t2m (fst card))) t2d) t = get t2m t).
  { intros t. rewrite get_map_keyed. fold t2d t2m in Hkeys. unfold same_keys in Hkeys.
    fold t2d t2m in Hkeys. rewrite Hkeys. unfold restored, contains.
    now destruct (get t2m t). }
  assert (Gd : forall d, get (swap_items t2d) d = get (definition_to_term self) d).
  { intros d. destruct (get (swap_items t2d) d) as [t|] eqn:E.
    - apply get_Some_In in E. apply (proj1 (In_swap_items _ _ _)) in E.
      apply (In_get _ _ _ Hok1) in E. symmetry. now apply Hinverse.
    - destruct (get (definition_to_term self) d) as [t|] eqn:E'; [|reflexivity].
      apply Hinverse, get_Some_In in E'. fold t2d in E'.
      apply get_None in E. rewrite keys_swap_items in E.
      exfalso. apply E. change d with (snd (t, d)). now apply in_map. }
  split; [|split; [reflexivity|]; split; [exact Gm|]; split; [exact Gd|]; split].
  - intros t d m. unfold has_card.
    cbn [term_to_definition term_to_mistakes]. fold t2d t2m. now rewrite Gm.
  - constructor.
    + unfold dicts_ok. cbn [term_to_definition definition_to_term term_to_mistakes].
      split; [exact Hok1|]. split.
      * unfold ok. now rewrite keys_swap_items.
      * unfold ok, keys. rewrite map_map. exact Hok1.
    + intros t d. cbn [term_to_definition definition_to_term]. rewrite Gd.
      apply Hinverse.
    + intros t. cbn [term_to_definition term_to_mistakes]. unfold contains at 2.
      rewrite Gm. apply Hkeys.
  - rewrite export_deck_eq; cbn [term_to_definition term_to_mistakes].
    + unfold deck_len. cbn [term_to_definition]. fold t2d.
      rewrite (map_ext _ (fun '(t, d) => (t, (d, restored t2m t)))); [reflexivity|].
      intros [t d]. unfold restored. now rewrite Gm.
    + exact Hok1.
    + intros t Ht. unfold contains. rewrite Gm.
      apply (same_keys_subset self t Hkeys) in Ht. exact Ht.
Qed.

Lemma export_import_roundtrip_witness :
  exists self',
    import_deck [("A", ("1", 5)); ("B", ("2", 7))] empty_deck = (Ok 2%nat, self') /\
    forall t d m, has_card self' t d m <-> has_card (ab_deck 5 7) t d m.
Proof.
  destruct (export_import_roundtrip (ab_deck 5 7))
    as [json_string [self' [Hexp [Himp [Hcards _]]]]].
  - apply Deck_invb_sound. reflexivity.
  - exists self'. split; [|exact Hcards].
    assert (E : json_string = [("A", ("1", 5)); ("B", ("2", 7))])
      by (vm_compute in Hexp; congruence).
    rewrite <- E. exact Himp.
Defined.

(* ================================================================== *)
(** ** Which calls keep the invariants *)

Lemma contains_by_keys {V W} (d : dict V) (d' : dict W) :
  keys d = keys d' -> forall k, contains d k = contains d' k.
Proof. intros E k. now rewrite !contains_existsb, E. Qed.

Lemma insert_card_inv self flashcard :
  Deck_inv self -> Deck_inv (snd (insert_card flashcard self)).
Proof.
  intros Hinv. rewrite insert_card_eq.
  destruct (contains (term_to_definition self) (term flashcard)
            || contains (definition_to_term self) (definition flashcard)) eqn:C;
    [exact Hinv|].
  apply orb_false_iff in C. destruct C as [C1 C2].
  apply contains_false_get in C1, C2.
  destruct Hinv as [[Hok1 [Hok2 Hok3]] Hinverse Hkeys].
  destruct flashcard as [t d]. cbn [term definition snd] in *.
  constructor.
  - unfold dicts_ok. cbn [term_to_definition definition_to_term term_to_mistakes].
    repeat split; now apply ok_set.
  - intros t' d'. cbn [term_to_definition definition_to_term].
    destruct (string_dec t' t) as [-> | Ht]; destruct (string_dec d' d) as [-> | Hd].
    + rewrite !get_set_same. tauto.
    + rewrite get_set_same, (get_set_other _ _ _ _ Hd). split.
      * intros [= <-]. congruence.
      * intros H. apply Hinverse in H. congruence.
    + rewrite get_set_same, (get_set_other _ _ _ _ Ht). split.
      * intros H. apply Hinverse in H. congruence.
      * intros [= <-]. congruence.
    + rewrite (get_set_other _ _ _ _ Ht), (get_set_other _ _ _ _ Hd). apply Hinverse.
  - intros t'. cbn [term_to_definition term_to_mistakes].
    rewrite !contains_set. now rewrite (Hkeys t').
Qed.

(** [remove_card] on a card of the deck returns and keeps the
    invariants. *)
Lemma remove_card_inv self flashcard :
  Deck_inv self ->
  get (term_to_definition self) (term flashcard) = Some (definition flashcard) ->
  exists self', remove_card flashcard self = (Ok tt, self') /\ Deck_inv self' /\
                get (term_to_definition self') (term flashcard) = None /\
                get (definition_to_term self') (definition flashcard) = None /\
                get (term_to_mistakes self') (term flashcard) = None /\
                deck_len self = S (deck_len self').
Proof.
  intros [[Hok1 [Hok2 Hok3]] Hinverse Hkeys] Hcard.
  destruct flashcard as [t d]. cbn [term definition] in *.
  assert (C1 : contains (term_to_definition self) t = true)
    by (apply contains_true_get; now exists d).
  assert (C3 : contains (term_to_mistakes self) t = true) by (now rewrite <- Hkeys).
  assert (C2 : contains (definition_to_term self) d = true)
    by (apply contains_true_get; exists t; now apply Hinverse).
  destruct (del_Some _ _ C1) as [T' HT]. destruct (del_Some _ _ C2) as [D' HD].
  destruct (del_Some _ _ C3) as [M' HM].
  rewrite remove_card_eq. cbn [term definition]. rewrite HT, HM, HD.
  eexists. split; [reflexivity|].
  cbn [term_to_definition definition_to_term term_to_mistakes].
  split; [|split; [|split; [|split]]].
  - constructor.
    + unfold dicts_ok. cbn [term_to_definition definition_to_term term_to_mistakes].
      split; [exact (ok_del _ _ _ Hok1 HT)|].
      split; [exact (ok_del _ _ _ Hok2 HD) | exact (ok_del _ _ _ Hok3 HM)].
    + intros t' d'. cbn [term_to_definition definition_to_term].
      destruct (string_dec t' t) as [-> | Ht]; destruct (string_dec d' d) as [-> | Hd].
      * rewrite (get_del_same _ _ _ Hok1 HT), (get_del_same _ _ _ Hok2 HD).
        split; discriminate.
      * rewrite (get_del_same _ _ _ Hok1 HT), (get_del_other _ _ _ _ HD Hd). split.
        -- discriminate.
        -- intros H. apply Hinverse in H. congruence.
      * rewrite (get_del_other _ _ _ _ HT Ht), (get_del_same _ _ _ Hok2 HD). split.
        -- intros H. apply Hinverse in H. apply Hinverse in Hcard. congruence.
        -- discriminate.
      * rewrite (get_del_other _ _ _ _ HT Ht), (get_del_other _ _ _ _ HD Hd).
        apply Hinverse.
    + intros t'. cbn [term_to_definition term_to_mistakes].
      rewrite (contains_del _ _ _ _ Hok1 HT), (contains_del _ _ _ _ Hok3 HM).
      now rewrite (Hkeys t').
  - exact (get_del_same _ _ _ Hok1 HT).
  - exact (get_del_same _ _ _ Hok2 HD).
  - exact (get_del_same _ _ _ Hok3 HM).
  - unfold deck_len. cbn [term_to_definition]. now apply (len_del _ t).
Qed.

(** A dictionary without two equal values and its swapped copy are
    inverse. *)
Lemma inverse_swap (T : dict string) (M : dict Z) :
  ok T -> NoDup (values T) -> inverse (mkDeck T (swap_items T) M).
Proof.
  intros Hk Hv t d. cbn [term_to_definition definition_to_term].
  rewrite (get_In_iff _ _ _ Hk), <- In_swap_items. symmetry. apply get_In_iff.
  unfold ok. now rewrite keys_swap_items.
Qed.

Lemma import_deck_inv self (json_string : snapshot) :
  Deck_inv self -> ok json_string ->
  NoDup (values (imported_terms json_string)) ->
  Deck_inv (snd (import_deck json_string self)).
Proof.
  intros Hinv Hj Hjdefs. pose proof (definitions_distinct self Hinv) as Hdefs.
  destruct Hinv as [[Hok1 [Hok2 Hok3]] Hinverse Hkeys].
  rewrite import_deck_state by assumption. cbn [snd].
  set (imp := imported_terms json_string) in *.
  set (kept := survivors json_string (term_to_definition self)).
  assert (Himp : ok imp) by (unfold ok, imp; now rewrite keys_imported_terms).
  assert (HT : ok (imp ++ kept)).
  { apply ok_app; [exact Himp | now apply ok_filter |].
    intros k Hk Hk'. now apply survivors_fresh in Hk'. }
  assert (HV : NoDup (values (imp ++ kept))).
  { unfold values. rewrite map_app. apply NoDup_app.
    - exact Hjdefs.
    - now apply (NoDup_map_filter snd).
    - intros k Hk Hk'. now apply survivors_fresh_definition in Hk'. }
  rewrite from_items_ok
    by (fold (keys (swap_items imp)); now rewrite keys_swap_items).
  rewrite <- swap_items_app.
  assert (EK : keys (imp ++ kept)
               = keys (imported_stats json_string
                       ++ map (fun card => (fst card,
                                 restored (term_to_mistakes self) (fst card))) kept)).
  { unfold keys. rewrite !map_app, map_map. cbn [fst].
    fold (keys imp). fold (keys (imported_stats json_string)).
    unfold imp. now rewrite keys_imported_terms, keys_imported_stats. }
  constructor.
  - unfold dicts_ok. cbn [term_to_definition definition_to_term term_to_mistakes].
    split; [exact HT|]. split.
    + unfold ok. now rewrite keys_swap_items.
    + unfold ok. now rewrite <- EK.
  - now apply inverse_swap.
  - intros t. cbn [term_to_definition term_to_mistakes]. now apply contains_by_keys.
Qed.

Lemma ask_inv self flashcard answer :
  Deck_inv self -> Deck_inv (snd (ask flashcard answer self)).
Proof.
  intros [[Hok1 [Hok2 Hok3]] Hinverse Hkeys].
  destruct (ask_keeps_keys self flashcard answer) as [ET [ED EK]].
  constructor.
  - unfold dicts_ok, ok. now rewrite ET, ED, EK.
  - intros t d. rewrite ET, ED. apply Hinverse.
  - intros t. rewrite ET, (contains_by_keys _ _ EK). apply Hkeys.
Qed.

Lemma reset_stats_inv self : Deck_inv self -> Deck_inv (snd (reset_stats self)).
Proof.
  intros [[Hok1 [Hok2 Hok3]] Hinverse Hkeys]. rewrite reset_stats_eq. cbn [snd].
  assert (EK : keys (fromkeys (V := Z) (keys (term_to_definition self)) 0)
               = keys (term_to_definition self)).
  { rewrite fromkeys_items by exact Hok1. unfold keys at 1. rewrite map_map.
    apply map_id. }
  constructor.
  - unfold dicts_ok, ok. cbn [term_to_definition definition_to_term term_to_mistakes].
    now rewrite EK.
  - exact Hinverse.
  - intros t. cbn [term_to_definition term_to_mistakes]. symmetry.
    now apply contains_by_keys.
Qed.

Lemma get_hardest_cards_state self : snd (get_hardest_cards self) = self.
Proof. now rewrite get_hardest_cards_eq. Qed.

(** X1.  Every call keeps the invariants of the deck (three
    dictionaries, the two indices inverse, terms and counts with the same
    keys), whether it returns or raises, when [remove_card] is given a
    card of the deck and [import_deck] a snapshot that holds no definition
    twice; the other five calls keep them for any argument. *)
Theorem run_keeps_inv (c : call) (self : Deck) :
  Deck_inv self -> args_sound self c -> Deck_inv (snd (run c self)).
Proof.
  intros Hinv Hargs. destruct c; cbn [run outcome snd].
  - now apply insert_card_inv.
  - destruct (remove_card_inv self flashcard Hinv Hargs) as [self' [E [H _]]].
    now rewrite E.
  - destruct Hargs as [Hj Hd]. now apply import_deck_inv.
  - now rewrite export_deck_state.
  - now apply ask_inv.
  - now rewrite get_hardest_cards_state.
  - now apply reset_stats_inv.
Qed.

Lemma empty_deck_inv : Deck_inv empty_deck.
Proof. apply Deck_invb_sound. reflexivity. Qed.

(** X2.  A call of [insert_card], [export_deck], [ask],
    [get_hardest_cards] or [reset_stats] that raises leaves the deck as it
    was, on every deck; so does a call of [remove_card] in a deck whose
    terms all have a count when the definition of the card is a key of
    the index as soon as its term is a key.  [import_deck] is left out:
    on a snapshot of strings and integers it does not raise, and other
    snapshots are outside [snapshot]. *)
Theorem run_raise_unchanged (c : call) (self : Deck) (e : exn) :
  match c with
  | Remove_card f =>
      same_keys self /\
      (contains (term_to_definition self) (term f) = true ->
       contains (definition_to_term self) (definition f) = true)
  | Import_deck _ => False
  | _ => True
  end ->
  fst (run c self) = Some e -> snd (run c self) = self.
Proof.
  destruct c; cbn [run outcome fst snd]; intros Hc Hraise.
  - rewrite insert_card_eq in *.
    now destruct (contains _ (term flashcard) || contains _ (definition flashcard)).
  - destruct Hc as [Hkeys Hd]. rewrite remove_card_eq in *.
    destruct (del (term_to_definition self) (term flashcard)) as [T'|] eqn:HT;
      [|reflexivity].
    assert (C1 : contains (term_to_definition self) (term flashcard) = true).
    { destruct (contains _ (term flashcard)) eqn:C; [reflexivity|].
      apply contains_false_get, del_None in C. congruence. }
    destruct (del_Some _ _ (Hd C1)) as [D' HD]. rewrite Hkeys in C1.
    destruct (del_Some _ _ C1) as [M' HM]. rewrite HM, HD in Hraise. discriminate.
  - destruct Hc.
  - apply export_deck_state.
  - destruct (string_dec answer (definition flashcard)) as [E | E].
    + now rewrite (ask_correct _ _ _ E).
    + rewrite (ask_wrong _ _ _ E) in *.
      now destruct (get (term_to_mistakes self) (term flashcard)).
  - apply get_hardest_cards_state.
  - discriminate.
Qed.

(* ================================================================== *)
(** ** Where the invariants are lost *)

Lemma ab_deck_reachable : reachable (ab_deck 0 0).
Proof.
  change (ab_deck 0 0)
    with (snd (run (Insert_card (mkFlashcard "B" "2"))
            (snd (run (Insert_card (mkFlashcard "A" "1")) empty_deck)))).
  repeat (apply reach_call; [|exact I]). apply reach_init.
Qed.

(** C1, at the inputs where the code departs from it.  From [Deck()],
    importing a snapshot that gives two terms one definition returns
    normally and leaves both terms in [term_to_definition] but only the
    later one in [definition_to_term]; and on the reachable deck
    [{"A": "1", "B": "2"}], [remove_card] of a card made of the term of
    one card and the definition of the other returns normally and leaves
    the term [B] without its definition in the index, and the definition
    ["1"] under a term that is gone.  In both reachable states the two
    indices are not inverse. *)
Theorem import_deck_breaks_inverse :
  let twins := mkDeck [("A", "x"); ("B", "x")] [("x", "B")] [("A", 0); ("B", 0)] in
  let crossed := mkDeck [("B", "2")] [("1", "A")] [("B", 0)] in
  Deck_inv empty_deck /\
  args_ok (Import_deck twin_import) /\
  run (Import_deck twin_import) empty_deck = (None, twins) /\
  reachable twins /\ ~ inverse twins /\
  Deck_inv (ab_deck 0 0) /\
  run (Remove_card (mkFlashcard "A" "2")) (ab_deck 0 0) = (None, crossed) /\
  reachable crossed /\ ~ inverse crossed.
Proof.
  intros twins crossed.
  split; [exact empty_deck_inv|].
  split; [apply okb_ok; reflexivity|].
  split; [reflexivity|].
  split.
  { change twins with (snd (run (Import_deck twin_import) empty_deck)).
    apply reach_call; [apply reach_init | apply okb_ok; reflexivity]. }
  split.
  { intros H. specialize (H "A" "x"). cbv in H. destruct H as [H _].
    specialize (H eq_refl). discriminate. }
  split; [apply Deck_invb_sound; reflexivity|].
  split; [reflexivity|].
  split.
  { change crossed with (snd (run (Remove_card (mkFlashcard "A" "2")) (ab_deck 0 0))).
    apply reach_call; [exact ab_deck_reachable | exact I]. }
  intros H. specialize (H "B" "2"). cbv in H. destruct H as [H _].
  specialize (H eq_refl). discriminate.
Qed.

(** C2, at the input where the code departs from it.  On the deck
    [{"France": "Paris"}], which is under [Deck_inv], [remove_card] of a
    card with the term [France] and a definition that is no key of the
    index raises [KeyError] after it has deleted the term from
    [term_to_definition] and from [term_to_mistakes]: two entries are
    gone, the third is left, and the invariants with them. *)
Theorem remove_card_not_atomic :
  let torn := mkDeck [] [("Paris", "France")] [] in
  Deck_inv france_deck /\
  remove_card (mkFlashcard "France" "Berlin") france_deck
  = (Raise (KeyError NoArgs), torn) /\
  torn <> france_deck /\
  get (term_to_definition torn) "France" = None /\
  get (term_to_mistakes torn) "France" = None /\
  get (definition_to_term torn) "Paris" = Some "France" /\
  ~ inverse torn.
Proof.
  intros torn.
  split; [apply Deck_invb_sound; reflexivity|].
  split; [reflexivity|].
  split; [discriminate|].
  split; [reflexivity|]. split; [reflexivity|]. split; [reflexivity|].
  intros H. specialize (H "France" "Paris"). cbv in H. destruct H as [_ H].
  specialize (H eq_refl). discriminate.
Qed.

(** X4.  [insert_card] of a card whose term and definition are new,
    then [remove_card] of the same card: both return, and the deck is
    exactly as it was before the two calls, order of the items
    included. *)
Theorem insert_then_remove self flashcard :
  contains (term_to_definition self) (term flashcard) = false ->
  contains (definition_to_term self) (definition flashcard) = false ->
  contains (term_to_mistakes self) (term flashcard) = false ->
  exists self',
    insert_card flashcard self = (Ok tt, self') /\
    remove_card flashcard self' = (Ok tt, self).
Proof.
  intros C1 C2 C3. rewrite insert_card_eq, C1, C2. cbn [orb].
  eexists. split; [reflexivity|]. rewrite remove_card_eq.
  cbn [term_to_definition definition_to_term term_to_mistakes].
  apply contains_false_get in C1, C2, C3.
  rewrite (set_absent _ _ _ C1), (set_absent _ _ _ C2), (set_absent _ _ _ C3).
  assert (G : forall V (d : dict V) k v, get d k = None -> del (d ++ [(k, v)]) k = Some d).
  { intros V d k v. induction d as [|[k' v'] r IH]; simpl.
    - now rewrite String.eqb_refl.
    - destruct (String.eqb k k'); [discriminate|]. intros H. now rewrite (IH H). }
  rewrite (G _ _ _ _ C1), (G _ _ _ _ C3), (G _ _ _ _ C2). now destruct self.
Qed.

(* ================================================================== *)
(** ** What holds of every reachable deck *)

Lemma ok_fromkeys {V} (ks : list string) (v : V) : ok (fromkeys ks v).
Proof.
  unfold fromkeys.
  assert (G : forall d : dict V, ok d -> ok (fold_left (fun acc k => set acc k v) ks d)).
  { induction ks as [|k r IH]; simpl; intros d H; [exact H|].
    apply IH. now apply ok_set. }
  apply G. constructor.
Qed.

Lemma reinsert_keeps_keys old_stats card self :
  dicts_ok self /\ same_keys self ->
  dicts_ok (reinsert old_stats self card) /\ same_keys (reinsert old_stats self card).
Proof.
  intros [[Hok1 [Hok2 Hok3]] Hkeys]. unfold reinsert.
  destruct (contains _ (fst card) || contains _ (snd card)); [now repeat split|].
  split.
  - unfold dicts_ok. cbn [term_to_definition definition_to_term term_to_mistakes].
    split; [|split]; now apply ok_set.
  - intros t. cbn [term_to_definition term_to_mistakes].
    now rewrite !contains_set, (Hkeys t).
Qed.

(** X3.  In every state a deck goes through from [Deck()], whatever the
    arguments of the calls and whether they return or raise, the three
    attributes are dictionaries and [term_to_definition] and
    [term_to_mistakes] have the same keys: of the invariants only
    [inverse] can be lost. *)
Theorem reachable_same_keys self :
  reachable self -> dicts_ok self /\ same_keys self.
Proof.
  induction 1 as [|c self Hreach [[Hok1 [Hok2 Hok3]] Hkeys] Hargs].
  - split; [repeat split; constructor | intros t; reflexivity].
  - destruct c; cbn [run outcome snd].
    + rewrite insert_card_eq.
      destruct (contains _ (term flashcard) || contains _ (definition flashcard));
        cbn [snd]; [now repeat split|].
      split.
      * unfold dicts_ok. cbn [term_to_definition definition_to_term term_to_mistakes].
        split; [|split]; now apply ok_set.
      * intros t. cbn [term_to_definition term_to_mistakes].
        now rewrite !contains_set, (Hkeys t).
    + rewrite remove_card_eq.
      destruct (del (term_to_definition self) (term flashcard)) as [T'|] eqn:HT;
        cbn [snd]; [|now repeat split].
      assert (C : contains (term_to_mistakes self) (term flashcard) = true).
      { rewrite <- Hkeys. destruct (contains _ (term flashcard)) eqn:C; [reflexivity|].
        apply contains_false_get, del_None in C. congruence. }
      destruct (del_Some _ _ C) as [M' HM]. rewrite HM.
      assert (K : forall t, contains T' t = contains M' t).
      { intros t. rewrite (contains_del _ _ _ _ Hok1 HT), (contains_del _ _ _ _ Hok3 HM).
        now rewrite (Hkeys t). }
      pose proof (ok_del _ _ _ Hok1 HT) as HT'. pose proof (ok_del _ _ _ Hok3 HM) as HM'.
      destruct (del (definition_to_term self) (definition flashcard)) as [D'|] eqn:HD;
        cbn [snd]; (split; [|exact K]); unfold dicts_ok;
        cbn [term_to_definition definition_to_term term_to_mistakes].
      * split; [exact HT'|]. split; [exact (ok_del _ _ _ Hok2 HD) | exact HM'].
      * split; [exact HT'|]. split; [exact Hok2 | exact HM'].
    + rewrite import_deck_eq. cbn [snd].
      cbn [args_ok] in Hargs.
      set (start := mkDeck _ _ _).
      assert (Hstart : dicts_ok start /\ same_keys start).
      { split.
        - unfold dicts_ok, start.
          cbn [term_to_definition definition_to_term term_to_mistakes].
          split; [|split]; apply ok_from_items.
        - intros t. unfold start. cbn [term_to_definition term_to_mistakes].
          rewrite !contains_from_items.
          fold (keys (imported_terms json_string)).
          fold (keys (imported_stats json_string)).
          now rewrite keys_imported_terms, keys_imported_stats. }
      clear Hok1 Hok2 Hok3 Hkeys Hreach. revert Hstart. generalize start.
      induction (term_to_definition self) as [|card r IH]; intros d Hd; [exact Hd|].
      simpl. apply IH. now apply reinsert_keeps_keys.
    + rewrite export_deck_state. now repeat split.
    + destruct (ask_keeps_keys self flashcard answer) as [ET [ED EK]]. split.
      * unfold dicts_ok, ok. now rewrite ET, ED, EK.
      * intros t. rewrite ET, (contains_by_keys _ _ EK). apply Hkeys.
    + rewrite get_hardest_cards_state. now repeat split.
    + rewrite reset_stats_eq. cbn [snd]. split.
      * unfold dicts_ok. cbn [term_to_definition definition_to_term term_to_mistakes].
        split; [exact Hok1|]. split; [exact Hok2 | apply ok_fromkeys].
      * intros t. cbn [term_to_definition term_to_mistakes].
        unfold contains at 2. rewrite get_fromkeys, <- contains_existsb.
        now destruct (contains (term_to_definition self) t).
Qed.

(** X7.  When the two indices are inverse, [get_by_term] on the term of
    a card returns that card exactly when [get_by_definition] on its
    definition does. *)
Theorem lookups_agree self (flashcard : Flashcard) :
  inverse self ->
  get_by_term (term flashcard) self = (Ok flashcard, self) <->
  get_by_definition (definition flashcard) self = (Ok flashcard, self).
Proof.
  intros Hinv. destruct flashcard as [t d]. cbn [term definition].
  unfold get_by_term, get_by_definition. run_method.
  specialize (Hinv t d).
  destruct (get (term_to_definition self) t) as [d'|] eqn:E1;
    destruct (get (definition_to_term self) d) as [t'|] eqn:E2; split; intros H;
    try discriminate.
  - injection H as ->. assert (E : Some t' = Some t) by (now apply Hinv).
    now injection E as ->.
  - injection H as ->. assert (E : Some d' = Some d) by (now apply Hinv).
    now injection E as ->.
  - injection H as ->. assert (E : None = Some t) by (now apply Hinv). discriminate.
  - injection H as ->. assert (E : None = Some d) by (now apply Hinv). discriminate.
Qed.

(* ================================================================== *)
(** ** Instances of the properties above *)

Lemma run_keeps_inv_witness :
  Deck_inv (snd (run (Remove_card france) france_deck)) /\
  Deck_inv (snd (run (Import_deck ab_import) (ab_deck 5 7))).
Proof.
  split.
  - apply run_keeps_inv; [apply Deck_invb_sound; reflexivity | reflexivity].
  - apply run_keeps_inv; [apply Deck_invb_sound; reflexivity|].
    split; [apply okb_ok; reflexivity | apply distinct_NoDup; reflexivity].
Defined.

Lemma run_raise_unchanged_witness :
  snd (run (Remove_card (mkFlashcard "Z" "2")) (ab_deck 5 7)) = ab_deck 5 7 /\
  snd (run (Insert_card (mkFlashcard "C" "2")) (ab_deck 5 7)) = ab_deck 5 7.
Proof.
  split.
  - apply (run_raise_unchanged _ _ (KeyError NoArgs)); [|reflexivity].
    split; [apply same_keysb_sound; reflexivity | discriminate].
  - apply (run_raise_unchanged _ _ (KeyError (Duplicate (mkFlashcard "C" "2"))));
      [exact I | reflexivity].
Defined.

Lemma reachable_same_keys_witness :
  dicts_ok (ab_deck 0 0) /\ same_keys (ab_deck 0 0).
Proof. apply reachable_same_keys. exact ab_deck_reachable. Defined.

Lemma insert_then_remove_witness :
  exists self',
    insert_card (mkFlashcard "C" "3") (ab_deck 5 7) = (Ok tt, self') /\
    remove_card (mkFlashcard "C" "3") self' = (Ok tt, ab_deck 5 7).
Proof. apply insert_then_remove; reflexivity. Defined.

Lemma lookups_agree_witness :
  get_by_term "France" france_deck = (Ok france, france_deck) <->
  get_by_definition "Paris" france_deck = (Ok france, france_deck).
Proof. apply (lookups_agree france_deck france). apply inverseb_sound. reflexivity. Defined.

(* ================================================================== *)
(** ** Lookups, removal and the list of cards *)

Lemma get_by_term_eq self t :
  get_by_term t self =
  match get (term_to_definition self) t with
  | Some d => (Ok (mkFlashcard t d), self)
  | None => (Raise (KeyError NoArgs), self)
  end.
Proof.
  unfold get_by_term. run_method. now destruct (get (term_to_definition self) t).
Qed.

Lemma get_by_definition_eq self d :
  get_by_definition d self =
  match get (definition_to_term self) d with
  | Some t => (Ok (mkFlashcard t d), self)
  | None => (Raise (KeyError NoArgs), self)
  end.
Proof.
  unfold get_by_definition. run_method. now destruct (get (definition_to_term self) d).
Qed.

(** X5.  In a deck under the invariants, [remove_card] of a card of the
    deck returns; the card's term, definition and count are gone from the
    three dictionaries, every other term keeps its definition and its
    count, every other definition keeps its term, the size goes down by
    one and the invariants hold again. *)
Theorem remove_card_spec (self : Deck) (flashcard : Flashcard) :
  Deck_inv self ->
  get (term_to_definition self) (term flashcard) = Some (definition flashcard) ->
  exists self',
    remove_card flashcard self = (Ok tt, self') /\
    Deck_inv self' /\
    contains (term_to_definition self') (term flashcard) = false /\
    contains (definition_to_term self') (definition flashcard) = false /\
    contains (term_to_mistakes self') (term flashcard) = false /\
    (forall t, t <> term flashcard ->
       get (term_to_definition self') t = get (term_to_definition self) t /\
       get (term_to_mistakes self') t = get (term_to_mistakes self) t) /\
    (forall d, d <> definition flashcard ->
       get (definition_to_term self') d = get (definition_to_term self) d) /\
    deck_len self = S (deck_len self').
Proof.
  intros Hinv Hcard.
  destruct (remove_card_inv self flashcard Hinv Hcard)
    as [self' [E [Hinv' [G1 [G2 [G3 Hlen]]]]]].
  exists self'. split; [exact E|]. split; [exact Hinv'|].
  split; [now apply contains_false_get|]. split; [now apply contains_false_get|].
  split; [now apply contains_false_get|].
  rewrite remove_card_eq in E.
  destruct (del (term_to_definition self) (term flashcard)) as [T'|] eqn:HT;
    [|discriminate].
  destruct (del (term_to_mistakes self) (term flashcard)) as [M'|] eqn:HM;
    [|discriminate].
  destruct (del (definition_to_term self) (definition flashcard)) as [D'|] eqn:HD;
    [|discriminate].
  injection E as <-. cbn [term_to_definition definition_to_term term_to_mistakes].
  split; [|split; [|exact Hlen]].
  - intros t Ht. split; eapply get_del_other; eassumption.
  - intros d Hd. eapply get_del_other; eassumption.
Qed.

Lemma remove_card_spec_witness :
  exists self',
    remove_card (mkFlashcard "A" "1") (ab_deck 5 7) = (Ok tt, self') /\
    get (term_to_definition self') "B" = Some "2" /\
    get (term_to_mistakes self') "B" = Some 7 /\
    deck_len self' = 1%nat.
Proof.
  destruct (remove_card_spec (ab_deck 5 7) (mkFlashcard "A" "1"))
    as [self' [E [_ [_ [_ [_ [Hother [_ Hlen]]]]]]]].
  - apply Deck_invb_sound. reflexivity.
  - reflexivity.
  - exists self'. split; [exact E|].
    destruct (Hother "B") as [H1 H2]; [discriminate|].
    split; [rewrite H1; reflexivity|]. split; [rewrite H2; reflexivity|].
    change (2%nat = S (deck_len self')) in Hlen. lia.
Defined.

(** X6.  After [insert_card] has returned, [get_by_term] on the card's
    term and [get_by_definition] on its definition both return the card,
    and neither changes the deck. *)
Theorem lookup_after_insert (self self' : Deck) (flashcard : Flashcard) :
  insert_card flashcard self = (Ok tt, self') ->
  get_by_term (term flashcard) self' = (Ok flashcard, self') /\
  get_by_definition (definition flashcard) self' = (Ok flashcard, self').
Proof.
  rewrite insert_card_eq.
  destruct (contains _ (term flashcard) || contains _ (definition flashcard));
    [discriminate|].
  intros [= <-]. rewrite get_by_term_eq, get_by_definition_eq.
  cbn [term_to_definition definition_to_term]. rewrite !get_set_same.
  now destruct flashcard.
Qed.

Lemma lookup_after_insert_witness :
  let self' := snd (insert_card (mkFlashcard "C" "3") (ab_deck 5 7)) in
  get_by_term "C" self' = (Ok (mkFlashcard "C" "3"), self') /\
  get_by_definition "3" self' = (Ok (mkFlashcard "C" "3"), self').
Proof.
  apply (lookup_after_insert (ab_deck 5 7) _ (mkFlashcard "C" "3")). reflexivity.
Defined.

(** X8.  [get_all_cards] returns one card per term, in the order of
    [term_to_definition], and does not change the deck; a card is in the
    list exactly when [get_by_term] on its term returns it; and after an
    [insert_card] that returned, the list is the old one with the new
    card at its end. *)
Theorem get_all_cards_spec (self : Deck) :
  exists cards,
    get_all_cards self = (Ok cards, self) /\
    List.length cards = deck_len self /\
    map term cards = keys (term_to_definition self) /\
    (ok (term_to_definition self) ->
     forall c, In c cards <-> get_by_term (term c) self = (Ok c, self)) /\
    (forall flashcard self',
       insert_card flashcard self = (Ok tt, self') ->
       get_all_cards self' = (Ok (cards ++ [flashcard]), self')).
Proof.
  eexists. split; [reflexivity|]. unfold items.
  split; [apply length_map|]. split.
  { rewrite map_map. apply map_ext. now intros [t d]. }
  split.
  - intros Hok c. rewrite get_by_term_eq, in_map_iff. split.
    + intros [[t d] [<- Hin]]. cbn [term]. now rewrite (In_get _ _ _ Hok Hin).
    + destruct (get (term_to_definition self) (term c)) as [d|] eqn:E; [|discriminate].
      intros [= <-]. exists (term c, d). split; [reflexivity|]. now apply get_Some_In.
  - intros flashcard self'. rewrite insert_card_eq.
    destruct (contains (term_to_definition self) (term flashcard)) eqn:C;
      [discriminate|].
    destruct (contains _ (definition flashcard)); [discriminate|].
    intros [= <-]. unfold get_all_cards. run_method. unfold items.
    apply contains_false_get in C. rewrite (set_absent _ _ _ C), map_app.
    now destruct flashcard.
Qed.

Lemma get_all_cards_spec_witness :
  get_all_cards (snd (insert_card (mkFlashcard "C" "3") (ab_deck 5 7)))
  = (Ok [mkFlashcard "A" "1"; mkFlashcard "B" "2"; mkFlashcard "C" "3"],
     snd (insert_card (mkFlashcard "C" "3") (ab_deck 5 7))).
Proof.
  destruct (get_all_cards_spec (ab_deck 5 7)) as [cards [E [_ [_ [_ H]]]]].
  assert (Ec : cards = [mkFlashcard "A" "1"; mkFlashcard "B" "2"])
    by (vm_compute in E; congruence).
  pose proof (H (mkFlashcard "C" "3")
                (snd (insert_card (mkFlashcard "C" "3") (ab_deck 5 7))) eq_refl) as H'.
  rewrite Ec in H'. exact H'.
Defined.

(* ================================================================== *)
(** ** More on [export_deck], [import_deck] and [Deck(json_deck)] *)

Lemma get_map_items {V W} (g : string -> V -> W) (l : dict V) t :
  get (map (fun kv => (fst kv, g (fst kv) (snd kv))) l) t = option_map (g t) (get l t).
Proof.
  induction l as [|[k v] r IH]; simpl; [reflexivity|].
  string_cases t k; [reflexivity | exact IH].
Qed.

(** The loop of [export_deck] stops at the first term without a count. *)
Lemma export_loop_raise (t2m : dict Z) (l : list (string * string)) acc self t :
  In t (map fst l) -> contains t2m t = false ->
  exists k,
    for_fold l acc (fun json_string '(t, d) =>
        stats <- subscript t2m t ;;
        ret (set json_string t (d, stats))) self
    = (Raise (KeyError (MissingKey k)), self) /\
    In k (map fst l) /\ contains t2m k = false.
Proof.
  revert acc. induction l as [|[t0 d0] r IH]; intros acc Hin Hc; [destruct Hin|].
  simpl. unfold bind at 1. unfold bind at 1, subscript at 1.
  destruct (get t2m t0) as [m|] eqn:E; simpl.
  - destruct Hin as [<- | Hin].
    + apply contains_false_get in Hc. simpl in Hc. congruence.
    + destruct (IH (set acc t0 (d0, m)) Hin Hc) as [k [H1 [H2 H3]]].
      exists k. split; [exact H1|]. split; [now right | exact H3].
  - exists t0. split; [reflexivity|]. split; [now left|].
    now apply contains_false_get.
Qed.

(** The snapshot of a deck, as [export_deck] builds it. *)
Lemma export_items_eq (self : Deck) :
  map (fun '(t, d) => (t, (d, restored (term_to_mistakes self) t)))
      (term_to_definition self)
  = map (fun kv => (fst kv, (snd kv, restored (term_to_mistakes self) (fst kv))))
        (term_to_definition self).
Proof. apply map_ext. now intros [t d]. Qed.

(** X9.  [export_deck] never changes the deck.  When every term has a
    count it returns the size of the deck and a snapshot with the terms
    of the deck in their order, which gives a term its definition and its
    count and holds nothing else; when some term has no count it raises
    the [KeyError] of such a term. *)
Theorem export_deck_spec (self : Deck) :
  snd (export_deck self) = self /\
  (ok (term_to_definition self) ->
   (forall t, contains (term_to_definition self) t = true ->
              contains (term_to_mistakes self) t = true) ->
   exists json_string : snapshot,
     export_deck self = (Ok (json_string, deck_len self), self) /\
     keys json_string = keys (term_to_definition self) /\
     len json_string = deck_len self /\
     forall t d m, get json_string t = Some (d, m) <-> has_card self t d m) /\
  (forall t,
     contains (term_to_definition self) t = true ->
     contains (term_to_mistakes self) t = false ->
     exists k,
       export_deck self = (Raise (KeyError (MissingKey k)), self) /\
       contains (term_to_definition self) k = true /\
       contains (term_to_mistakes self) k = false).
Proof.
  split; [apply export_deck_state|]. split.
  - intros Hok Hk. eexists. split; [now apply export_deck_eq|].
    rewrite export_items_eq. split; [|split].
    + unfold keys. rewrite map_map. reflexivity.
    + unfold len, deck_len, len. apply length_map.
    + intros t d m.
      rewrite (get_map_items (fun k v => (v, restored (term_to_mistakes self) k))).
      unfold has_card.
      destruct (get (term_to_definition self) t) as [d'|] eqn:E; simpl.
      * assert (C : contains (term_to_mistakes self) t = true).
        { apply Hk, contains_true_get. now exists d'. }
        apply contains_true_get in C. destruct C as [m' Hm'].
        unfold restored. rewrite Hm'. split.
        -- intros [= -> ->]. now split.
        -- intros [[= ->] [= ->]]. reflexivity.
      * split; [discriminate | intros [H _]; discriminate].
  - intros t Ht Hc. apply contains_In in Ht.
    destruct (export_loop_raise (term_to_mistakes self)
                (items (term_to_definition self)) empty self t Ht Hc)
      as [k [H1 [H2 H3]]].
    exists k. split; [|split; [now apply contains_In | exact H3]].
    unfold export_deck, bind at 1, get_self at 1. unfold bind at 1. now rewrite H1.
Qed.

Lemma export_deck_spec_witness :
  export_deck (ab_deck 5 7)
  = (Ok ([("A", ("1", 5)); ("B", ("2", 7))], 2%nat), ab_deck 5 7) /\
  exists k,
    export_deck (mkDeck [("A", "1"); ("B", "2")] [("1", "A"); ("2", "B")] [("A", 5)])
    = (Raise (KeyError (MissingKey k)),
       mkDeck [("A", "1"); ("B", "2")] [("1", "A"); ("2", "B")] [("A", 5)]).
Proof.
  split.
  - destruct (export_deck_spec (ab_deck 5 7)) as [_ [H _]].
    destruct H as [j [E _]].
    + apply okb_ok. reflexivity.
    + intros t Ht. rewrite <- Ht. symmetry.
      apply (same_keysb_sound (ab_deck 5 7)). reflexivity.
    + assert (Ej : j = [("A", ("1", 5)); ("B", ("2", 7))])
        by (vm_compute in E; congruence).
      rewrite <- Ej. exact E.
  - destruct (export_deck_spec
                (mkDeck [("A", "1"); ("B", "2")] [("1", "A"); ("2", "B")] [("A", 5)]))
      as [_ [_ H]].
    destruct (H "B" eq_refl eq_refl) as [k [E _]]. exists k. exact E.
Defined.

Lemma survivors_again (j : snapshot) (old : dict string) :
  survivors j (imported_terms j ++ survivors j old) = survivors j old.
Proof.
  unfold survivors, items. rewrite filter_app.
  assert (E1 : filter (fun card => negb (collides j card)) (imported_terms j) = []).
  { assert (G : forall l : dict string,
              (forall t, In t (keys l) -> In t (keys (imported_terms j))) ->
              filter (fun card => negb (collides j card)) l = []).
    { induction l as [|[t d] r IH]; simpl; intros H; [reflexivity|].
      unfold collides at 1. cbn [fst snd].
      assert (E : existsb (String.eqb t) (keys (imported_terms j)) = true)
        by (apply existsb_eqb_In, H; now left).
      rewrite E. simpl. apply IH. intros t' Ht'. apply H. now right. }
    apply G. tauto. }
  rewrite E1. simpl.
  assert (G : forall (f : string * string -> bool) l, filter f (filter f l) = filter f l).
  { intros f l. induction l as [|x r IH]; simpl; [reflexivity|].
    destruct (f x) eqn:E; simpl; [rewrite E; now f_equal | exact IH]. }
  apply G.
Qed.

(** X10.  Importing the same snapshot a second time changes nothing:
    for a snapshot without a repeated definition and a deck whose terms
    have distinct definitions, [import_deck] on the deck that the first
    import left returns the same count and leaves that deck as it is. *)
Theorem import_deck_idempotent (self : Deck) (json_string : snapshot) :
  ok json_string ->
  NoDup (values (imported_terms json_string)) ->
  ok (term_to_definition self) ->
  NoDup (values (term_to_definition self)) ->
  import_deck json_string (snd (import_deck json_string self))
  = (Ok (len json_string), snd (import_deck json_string self)).
Proof.
  intros Hj Hjd Hok Hd. rewrite (import_deck_state json_string self) by assumption.
  cbn [snd].
  set (imp := imported_terms json_string) in *.
  set (kept := survivors json_string (term_to_definition self)).
  assert (Himp : ok imp) by (unfold ok, imp; now rewrite keys_imported_terms).
  assert (Hkept : ok kept) by (now apply ok_filter).
  rewrite import_deck_state; cbn [term_to_definition term_to_mistakes].
  - fold imp.
    rewrite (survivors_again json_string (term_to_definition self)
             : survivors json_string (imp ++ kept) = kept).
    f_equal. f_equal.
    f_equal. apply map_ext_in. intros [t d] Hin. cbn [fst]. f_equal.
    unfold restored at 1. rewrite get_app.
    assert (E : get (imported_stats json_string) t = None).
    { apply get_None. rewrite keys_imported_stats, <- keys_imported_terms.
      apply (survivors_fresh json_string (term_to_definition self)).
      change t with (fst (t, d)). now apply in_map. }
    rewrite E, (get_map_keyed (restored (term_to_mistakes self)) kept t).
    assert (C : contains kept t = true).
    { apply contains_In. change t with (fst (t, d)). now apply in_map. }
    now rewrite C.
  - exact Hj.
  - apply ok_app; [exact Himp | exact Hkept |].
    intros k Hk Hk'. now apply survivors_fresh in Hk'.
  - unfold values. rewrite map_app. apply NoDup_app.
    + exact Hjd.
    + now apply (NoDup_map_filter snd).
    + intros k Hk Hk'. now apply survivors_fresh_definition in Hk'.
Qed.

Lemma import_deck_idempotent_witness :
  import_deck ab_import (snd (import_deck ab_import (ab_deck 5 7)))
  = (Ok 2%nat, snd (import_deck ab_import (ab_deck 5 7))).
Proof.
  apply (import_deck_idempotent (ab_deck 5 7) ab_import).
  - apply okb_ok. reflexivity.
  - apply distinct_NoDup. reflexivity.
  - apply okb_ok. reflexivity.
  - apply distinct_NoDup. reflexivity.
Defined.

Lemma Deck_init_Some (json_string : snapshot) :
  ok json_string ->
  Deck_init (Some json_string)
  = mkDeck (imported_terms json_string)
           (from_items (swap_items (imported_terms json_string)))
           (imported_stats json_string).
Proof.
  intros Hj. destruct json_string as [|x r] eqn:E; [reflexivity|].
  unfold Deck_init. rewrite <- E in *.
  rewrite import_deck_state; [|exact Hj | constructor | constructor].
  cbn [snd empty_deck term_to_definition term_to_mistakes survivors items filter
       swap_items map empty].
  now rewrite !app_nil_r.
Qed.

(** X11.  [Deck()] is the empty deck.  [Deck(json_deck)] on a snapshot
    holds the cards of the snapshot and no other, each with its count
    there, as many as the snapshot has items, also when the snapshot is
    empty and so not imported at all; when the snapshot holds no
    definition twice the new deck is under the invariants. *)
Theorem Deck_init_spec :
  Deck_init None = empty_deck /\
  forall json_string : snapshot,
    ok json_string ->
    term_to_definition (Deck_init (Some json_string)) = imported_terms json_string /\
    term_to_mistakes (Deck_init (Some json_string)) = imported_stats json_string /\
    deck_len (Deck_init (Some json_string)) = len json_string /\
    (forall t d m, has_card (Deck_init (Some json_string)) t d m
                   <-> get json_string t = Some (d, m)) /\
    (NoDup (values (imported_terms json_string)) ->
     Deck_inv (Deck_init (Some json_string))).
Proof.
  split; [reflexivity|]. intros j Hj. rewrite (Deck_init_Some j Hj).
  cbn [term_to_definition term_to_mistakes].
  split; [reflexivity|]. split; [reflexivity|]. split; [|split].
  - unfold deck_len, len, imported_terms. cbn [term_to_definition]. apply length_map.
  - intros t d m. unfold has_card. cbn [term_to_definition term_to_mistakes].
    rewrite get_imported_terms, get_imported_stats.
    destruct (get j t) as [[d' m']|]; simpl.
    + split; [intros [[= ->] [= ->]]; reflexivity | intros [= -> ->]; now split].
    + split; [intros [H _]; discriminate | discriminate].
  - intros Hd. rewrite <- (Deck_init_Some j Hj).
    destruct j as [|x r] eqn:E; [exact empty_deck_inv|].
    unfold Deck_init. rewrite <- E in *.
    now apply import_deck_inv; [exact empty_deck_inv | |].
Qed.

Lemma Deck_init_spec_witness :
  deck_len (Deck_init (Some ab_import)) = 2%nat /\
  Deck_inv (Deck_init (Some ab_import)).
Proof.
  destruct Deck_init_spec as [_ H].
  destruct (H ab_import) as [_ [_ [Hlen [_ Hinv]]]].
  - apply okb_ok. reflexivity.
  - split; [exact Hlen|]. apply Hinv. apply distinct_NoDup. reflexivity.
Defined.

(** X12.  [Deck(json_deck)] on the snapshot that [export_deck] returned
    for a deck under the invariants has the terms of that deck with
    their definitions, in the same order, and the same (term, definition,
    count) triples; this holds of the empty deck too, whose empty export
    the constructor does not import. *)
Theorem Deck_init_export (self : Deck) (json_string : snapshot) (n : nat) :
  Deck_inv self ->
  export_deck self = (Ok (json_string, n), self) ->
  n = deck_len self /\
  term_to_definition (Deck_init (Some json_string)) = term_to_definition self /\
  forall t d m, has_card (Deck_init (Some json_string)) t d m <-> has_card self t d m.
Proof.
  intros Hinv. rewrite (export_deck_inv self Hinv).
  destruct Hinv as [[Hok1 [Hok2 Hok3]] Hinverse Hkeys].
  intros [= <- <-]. split; [reflexivity|].
  set (snap := map (fun '(t, d) => (t, (d, restored (term_to_mistakes self) t)))
                   (term_to_definition self)).
  assert (Eterms : imported_terms snap = term_to_definition self).
  { unfold imported_terms, snap, items. rewrite map_map.
    rewrite <- (map_id (term_to_definition self)) at 2. apply map_ext. now intros [t d]. }
  assert (Estats : imported_stats snap
                   = map (fun card => (fst card, restored (term_to_mistakes self) (fst card)))
                         (term_to_definition self)).
  { unfold imported_stats, snap, items. rewrite map_map.
    apply map_ext. now intros [t d]. }
  assert (Hsnap : ok snap).
  { unfold ok. now rewrite <- keys_imported_terms, Eterms. }
  rewrite (Deck_init_Some snap Hsnap). cbn [term_to_definition].
  split; [exact Eterms|].
  intros t d m. unfold has_card. cbn [term_to_definition term_to_mistakes].
  rewrite Eterms, Estats, get_map_keyed, (Hkeys t).
  unfold restored, contains. now destruct (get (term_to_mistakes self) t).
Qed.

Lemma Deck_init_export_witness :
  term_to_definition (Deck_init (Some [("A", ("1", 5)); ("B", ("2", 7))]))
  = term_to_definition (ab_deck 5 7) /\
  (has_card (Deck_init (Some [("A", ("1", 5)); ("B", ("2", 7))])) "B" "2" 7
   <-> has_card (ab_deck 5 7) "B" "2" 7).
Proof.
  destruct (Deck_init_export (ab_deck 5 7) [("A", ("1", 5)); ("B", ("2", 7))] 2%nat)
    as [_ [H1 H2]].
  - apply Deck_invb_sound. reflexivity.
  - reflexivity.
  - split; [exact H1 | apply H2].
Defined.

(* ================================================================== *)
(** ** Repeated answers and the draw *)

Lemma ask_all_state (flashcard : Flashcard) (answers : list string) :
  forall self m,
    get (term_to_mistakes self) (term flashcard) = Some m ->
    term_to_definition (ask_all flashcard answers self) = term_to_definition self /\
    definition_to_term (ask_all flashcard answers self) = definition_to_term self /\
    keys (term_to_mistakes (ask_all flashcard answers self))
      = keys (term_to_mistakes self) /\
    get (term_to_mistakes (ask_all flashcard answers self)) (term flashcard)
      = Some (m + Z.of_nat (List.length (wrong_answers flashcard answers))) /\
    (forall t, t <> term flashcard ->
       get (term_to_mistakes (ask_all flashcard answers self)) t
       = get (term_to_mistakes self) t).
Proof.
  induction answers as [|a r IH]; intros self m Hm.
  - simpl. rewrite Z.add_0_r. now repeat split.
  - change (ask_all flashcard (a :: r) self)
      with (ask_all flashcard r (snd (ask flashcard a self))).
    change (wrong_answers flashcard (a :: r))
      with (if negb (String.eqb a (definition flashcard))
            then a :: wrong_answers flashcard r else wrong_answers flashcard r).
    destruct (string_dec a (definition flashcard)) as [E | E].
    + rewrite (ask_correct _ _ _ E). cbn [snd].
      apply String.eqb_eq in E. rewrite E. cbn [negb]. now apply IH.
    + assert (Es : snd (ask flashcard a self)
                   = mkDeck (term_to_definition self) (definition_to_term self)
                            (set (term_to_mistakes self) (term flashcard) (m + 1)))
        by (now rewrite (ask_wrong _ _ _ E), Hm).
      rewrite Es. apply String.eqb_neq in E. rewrite E. cbn [negb].
      destruct (IH (mkDeck (term_to_definition self) (definition_to_term self)
                           (set (term_to_mistakes self) (term flashcard) (m + 1)))
                   (m + 1)) as [H1 [H2 [H3 [H4 H5]]]].
      { cbn [term_to_mistakes]. apply get_set_same. }
      cbn [term_to_definition definition_to_term term_to_mistakes] in H1, H2, H3, H4, H5.
      split; [exact H1|]. split; [exact H2|]. split; [|split].
      * rewrite H3. apply keys_set_present, contains_true_get. now exists m.
      * rewrite H4. f_equal. cbn [List.length]. lia.
      * intros t Ht. rewrite (H5 t Ht). now apply get_set_other.
Qed.

(** One term strictly above all others is the only hardest card. *)
Lemma hardest_unique_max (self : Deck) t mx :
  ok (term_to_mistakes self) ->
  get (term_to_mistakes self) t = Some mx ->
  mx <> 0 ->
  (forall t' m', t' <> t -> get (term_to_mistakes self) t' = Some m' -> m' < mx) ->
  get_hardest_cards self = (Ok ([t], mx), self).
Proof.
  intros Hok Ht H0 Hlt. rewrite get_hardest_cards_eq.
  set (M := term_to_mistakes self) in *.
  assert (Hin : In (t, mx) M) by (now apply get_Some_In).
  assert (Emax : py_max (values M) 0 = mx).
  { destruct (py_max_spec (values M) 0) as [_ Hne].
    destruct Hne as [H1 H2].
    - intros E. apply (in_map snd) in Hin. fold (values M) in Hin.
      rewrite E in Hin. destruct Hin.
    - assert (Hle : mx <= py_max (values M) 0)
        by (apply H2; change mx with (snd (t, mx)); now apply in_map).
      apply (proj1 (in_map_iff snd M _)) in H1.
      destruct H1 as [[t' m'] [E Hin']]. cbn [snd] in E.
      destruct (string_dec t' t) as [-> | Hne'].
      + apply (In_get _ _ _ Hok) in Hin'. congruence.
      + apply (In_get _ _ _ Hok) in Hin'. specialize (Hlt t' m' Hne' Hin'). lia. }
  rewrite Emax. apply Z.eqb_neq in H0. rewrite H0. f_equal. f_equal. clear Emax.
  assert (G : forall l : dict Z,
            NoDup (keys l) -> In (t, mx) l ->
            (forall t' m', In (t', m') l -> t' <> t -> m' <> mx) ->
            map fst (filter (fun '(_, mistakes) => mistakes =? mx) l) = [t]).
  { induction l as [|[k v] r IH]; intros Hnd Hin' Hoth; [destruct Hin'|].
    unfold keys in Hnd. simpl in Hnd. inversion Hnd as [|? ? Hk Hr]; subst.
    cbn [filter]. destruct Hin' as [E | Hin'].
    - injection E as E1 E2. subst k v. rewrite Z.eqb_refl. cbn [map fst]. f_equal.
      assert (F : forall l' : dict Z, (forall t' m', In (t', m') l' -> m' <> mx) ->
                filter (fun '(_, mistakes) => mistakes =? mx) l' = []).
      { induction l' as [|[k' v'] r' IH']; simpl; intros H; [reflexivity|].
        assert (Hv : v' <> mx) by (apply (H k'); now left).
        apply Z.eqb_neq in Hv. rewrite Hv. apply IH'.
        intros t' m' Hm. apply (H t'). now right. }
      rewrite F; [reflexivity|]. intros t' m' Hm.
      apply (Hoth t'); [now right|]. intros ->. apply Hk.
      change t with (fst (t, m')). now apply in_map.
    - assert (Hkt : k <> t).
      { intros ->. apply Hk. change t with (fst (t, mx)). now apply in_map. }
      assert (Hv : v <> mx) by (apply (Hoth k); [now left | exact Hkt]).
      apply Z.eqb_neq in Hv. rewrite Hv. apply IH; [exact Hr | exact Hin' |].
      intros t' m' Hm. apply Hoth. now right. }
  rewrite (G M); [reflexivity | exact Hok | exact Hin |].
  intros t' m' Hm Hne. apply (In_get _ _ _ Hok) in Hm.
  specialize (Hlt t' m' Hne Hm). lia.
Qed.

(** X13.  [ask] on one card with a list of answers, one call each, adds
    to the card's count the number of answers that differ from its
    definition and nothing for the others; and when that count is not 0
    and every other term has less, [get_hardest_cards] then returns this
    term alone, with that count. *)
Theorem wrong_answers_hardest (self : Deck) (flashcard : Flashcard)
    (answers : list string) (m : Z) :
  ok (term_to_mistakes self) ->
  get (term_to_mistakes self) (term flashcard) = Some m ->
  let n := Z.of_nat (List.length (wrong_answers flashcard answers)) in
  let self' := ask_all flashcard answers self in
  get (term_to_mistakes self') (term flashcard) = Some (m + n) /\
  (m + n <> 0 ->
   (forall t m', t <> term flashcard ->
      get (term_to_mistakes self) t = Some m' -> m' < m + n) ->
   get_hardest_cards self' = (Ok ([term flashcard], m + n), self')).
Proof.
  intros Hok Hm n self'. subst n self'.
  destruct (ask_all_state flashcard answers self m Hm) as [_ [_ [HK [Hget Hoth]]]].
  split; [exact Hget|]. intros H0 Hlt. apply hardest_unique_max.
  - unfold ok. now rewrite HK.
  - exact Hget.
  - exact H0.
  - intros t m' Ht Hm'. rewrite (Hoth t Ht) in Hm'. now apply (Hlt t).
Qed.

Lemma wrong_answers_hardest_witness :
  get_hardest_cards (ask_all (mkFlashcard "A" "1") ["x"; "1"; "2"; "y"] (ab_deck 0 2))
  = (Ok (["A"], 3), ask_all (mkFlashcard "A" "1") ["x"; "1"; "2"; "y"] (ab_deck 0 2)).
Proof.
  destruct (wrong_answers_hardest (ab_deck 0 2) (mkFlashcard "A" "1")
              ["x"; "1"; "2"; "y"] 0) as [_ H].
  - apply okb_ok. reflexivity.
  - reflexivity.
  - apply H; [discriminate|]. intros t m' Ht Hm'.
    change (get [("A", 0); ("B", 2)] t = Some m') in Hm'. simpl in Hm'.
    destruct (String.eqb t "A") eqn:EA; [apply String.eqb_eq in EA; contradiction|].
    destruct (String.eqb t "B"); [|discriminate].
    injection Hm' as <-. reflexivity.
Defined.

(** X14.  [get_random_card] fails on the empty deck, and for a draw
    below the size of the deck it returns a card of the deck: its term
    is a key of [term_to_definition] with its definition for value,
    [get_by_term] finds the card again, [ask] on it with its definition
    is correct and changes nothing, and in a deck whose terms all have a
    count [ask] on it raises for no answer. *)
Theorem random_card_in_deck (self : Deck) (i : nat) :
  (deck_len self = 0%nat -> get_random_card i self = None) /\
  ((i < deck_len self)%nat ->
   exists c,
     get_random_card i self = Some c /\
     In (term c, definition c) (items (term_to_definition self)) /\
     (ok (term_to_definition self) -> get_by_term (term c) self = (Ok c, self)) /\
     ask c (definition c) self = (Ok (true, Some (definition c)), self) /\
     (same_keys self -> forall answer, exists r, fst (ask c answer self) = Ok r)).
Proof.
  unfold get_random_card, random_choice, deck_len, len, items. split.
  - intros H. destruct (term_to_definition self); [|discriminate].
    now destruct i.
  - intros Hi. apply nth_error_Some in Hi.
    destruct (nth_error (term_to_definition self) i) as [[t d]|] eqn:E; [|congruence].
    apply nth_error_In in E. exists (mkFlashcard t d). cbn [term definition].
    split; [reflexivity|]. split; [exact E|]. split; [|split].
    + intros Hok. rewrite get_by_term_eq. now rewrite (In_get _ _ _ Hok E).
    + now apply ask_correct.
    + intros Hkeys answer. destruct (string_dec answer d) as [-> | Hne].
      * rewrite ask_correct by reflexivity. now eexists.
      * rewrite (ask_wrong self (mkFlashcard t d) answer Hne). cbn [term].
        assert (C : contains (term_to_mistakes self) t = true).
        { rewrite <- Hkeys. apply contains_In. change t with (fst (t, d)).
          now apply in_map. }
        apply contains_true_get in C. destruct C as [m Hm]. rewrite Hm.
        now eexists.
Qed.

Lemma random_card_in_deck_witness :
  get_random_card 1 (ab_deck 5 7) = Some (mkFlashcard "B" "2") /\
  get_random_card 0 empty_deck = None.
Proof.
  split.
  - destruct (proj2 (random_card_in_deck (ab_deck 5 7) 1)) as [c [E _]].
    + unfold deck_len, len. simpl. lia.
    + assert (Ec : c = mkFlashcard "B" "2") by (vm_compute in E; congruence).
      rewrite <- Ec. exact E.
  - apply (proj1 (random_card_in_deck empty_deck 0)). reflexivity.
Defined.

(* ================================================================== *)
(** ** The session *)

(** A round of the first loop of [_add], with its call of
    [get_input_and_log]. *)
Lemma retry_term_round (t : string) (stdin : list string) (s : Session) :
  retry_term t stdin s =
  match fst (get_by_term t (deck s)) with
  | Raise _ => (Some t, stdin, s)
  | Ok _ =>
      match get_input_and_log (card_exists_message t) stdin s with
      | (None, stdin, s) => (None, stdin, s)
      | (Some response, stdin, s) => retry_term response stdin s
      end
  end.
Proof. destruct stdin; simpl; now destruct (fst (get_by_term t (deck s))). Qed.

Lemma retry_definition_round (d : string) (stdin : list string) (s : Session) :
  retry_definition d stdin s =
  match fst (get_by_definition d (deck s)) with
  | Raise _ => (Some d, stdin, s)
  | Ok _ =>
      match get_input_and_log (definition_exists_message d) stdin s with
      | (None, stdin, s) => (None, stdin, s)
      | (Some response, stdin, s) => retry_definition response stdin s
      end
  end.
Proof. destruct stdin; simpl; now destruct (fst (get_by_definition d (deck s))). Qed.

Lemma retry_term_spec (stdin : list string) : forall t s,
  retry_result (fun d x => contains (term_to_definition d) x) t stdin s
               (retry_term t stdin s).
Proof.
  induction stdin as [|response rest IH]; intros t s; simpl;
    rewrite get_by_term_eq; unfold contains;
    destruct (get (term_to_definition (deck s)) t) eqn:E; cbn [fst].
  - split; [reflexivity|]. split; [reflexivity|].
    intros y [<- | []]. unfold contains. now rewrite E.
  - split; [reflexivity|]. unfold contains. rewrite E. split; [reflexivity|].
    exists []. now split.
  - specialize (IH response
      (logger_debug response
         (print_line (card_exists_message t) (logger_debug (card_exists_message t) s)))).
    unfold retry_result in IH.
    destruct (retry_term response rest _) as [[answer rest'] s']. cbn [deck] in IH.
    destruct IH as [Hd IH]. split; [exact Hd|].
    assert (Ct : contains (term_to_definition (deck s)) t = true)
      by (unfold contains; now rewrite E).
    destruct answer as [x|].
    + destruct IH as [Hx [pre [Hpre Hall]]]. split; [exact Hx|].
      exists (t :: pre). split; [simpl; now rewrite Hpre|].
      intros y [<- | Hy]; [exact Ct | now apply Hall].
    + destruct IH as [Hr Hall]. split; [exact Hr|].
      intros y [<- | Hy]; [exact Ct | now apply Hall].
  - split; [reflexivity|]. unfold contains. rewrite E. split; [reflexivity|].
    exists []. now split.
Qed.

Lemma retry_definition_spec (stdin : list string) : forall d s,
  retry_result (fun self x => contains (definition_to_term self) x) d stdin s
               (retry_definition d stdin s).
Proof.
  induction stdin as [|response rest IH]; intros d s; simpl;
    rewrite get_by_definition_eq; unfold contains;
    destruct (get (definition_to_term (deck s)) d) eqn:E; cbn [fst].
  - split; [reflexivity|]. split; [reflexivity|].
    intros y [<- | []]. unfold contains. now rewrite E.
  - split; [reflexivity|]. unfold contains. rewrite E. split; [reflexivity|].
    exists []. now split.
  - specialize (IH response
      (logger_debug response
         (print_line (definition_exists_message d)
            (logger_debug (definition_exists_message d) s)))).
    unfold retry_result in IH.
    destruct (retry_definition response rest _) as [[answer rest'] s']. cbn [deck] in IH.
    destruct IH as [Hd IH]. split; [exact Hd|].
    assert (Ct : contains (definition_to_term (deck s)) d = true)
      by (unfold contains; now rewrite E).
    destruct answer as [x|].
    + destruct IH as [Hx [pre [Hpre Hall]]]. split; [exact Hx|].
      exists (d :: pre). split; [simpl; now rewrite Hpre|].
      intros y [<- | Hy]; [exact Ct | now apply Hall].
    + destruct IH as [Hr Hall]. split; [exact Hr|].
      intros y [<- | Hy]; [exact Ct | now apply Hall].
  - split; [reflexivity|]. unfold contains. rewrite E. split; [reflexivity|].
    exists []. now split.
Qed.

(** X15.  [_add] never lets a [KeyError] of the deck out: it returns, or
    [input()] finds the input at its end and the deck is as it was.  When
    it returns it has read the lines up to the first one that is no term
    of the deck, then the lines up to the first one that is no definition
    of the deck, every line before them being refused; the deck is the one
    [insert_card] leaves for that term and that definition, and the last
    two lines printed are the confirmation and an empty line.  The
    invariants of the deck are kept either way. *)
Theorem add_spec (stdin : list string) (s : Session) :
  match _add stdin s with
  | (Uncaught _, _, _) => False
  | (EOFError, rest, s') => rest = [] /\ deck s' = deck s
  | (Returned _, rest, s') =>
      exists pre1 t pre2 d,
        stdin = pre1 ++ t :: pre2 ++ d :: rest /\
        (forall x, In x pre1 -> contains (term_to_definition (deck s)) x = true) /\
        contains (term_to_definition (deck s)) t = false /\
        (forall x, In x pre2 -> contains (definition_to_term (deck s)) x = true) /\
        contains (definition_to_term (deck s)) d = false /\
        insert_card (mkFlashcard t d) (deck s) = (Ok tt, deck s') /\
        (Deck_inv (deck s) -> Deck_inv (deck s')) /\
        exists before, stdout s' = before ++ [added_message (mkFlashcard t d); ""]
  end.
Proof.
  unfold _add, get_input_and_log at 1.
  destruct stdin as [|t0 stdin1]; [now split|].
  set (s1 := logger_debug t0 _).
  assert (D1 : deck s1 = deck s) by reflexivity.
  pose proof (retry_term_spec stdin1 t0 s1) as H1. unfold retry_result in H1.
  destruct (retry_term t0 stdin1 s1) as [[r1 rest1] s2].
  rewrite D1 in H1. destruct H1 as [D2 H1].
  destruct r1 as [t|]; [|destruct H1 as [-> _]; now split].
  destruct H1 as [Ct [pre1 [Epre1 Hpre1]]].
  unfold get_input_and_log.
  destruct rest1 as [|d0 stdin2]; [split; [reflexivity|]; exact D2|].
  set (s3 := logger_debug d0 _).
  assert (D3 : deck s3 = deck s) by (exact D2).
  pose proof (retry_definition_spec stdin2 d0 s3) as H2. unfold retry_result in H2.
  destruct (retry_definition d0 stdin2 s3) as [[r2 rest2] s4].
  rewrite D3 in H2. destruct H2 as [D4 H2].
  destruct r2 as [d|]; [|destruct H2 as [-> _]; now split].
  destruct H2 as [Cd [pre2 [Epre2 Hpre2]]].
  rewrite D4, insert_card_eq. cbn [term definition]. rewrite Ct, Cd. cbn [orb].
  exists pre1, t, pre2, d.
  split; [now rewrite Epre1, Epre2|].
  split; [exact Hpre1|]. split; [exact Ct|]. split; [exact Hpre2|].
  split; [exact Cd|].
  split; [rewrite insert_card_eq; cbn [term definition]; now rewrite Ct, Cd|]. split.
  - intros Hinv. cbn [deck print_line print_and_log logger_debug with_deck].
    pose proof (insert_card_inv (deck s) (mkFlashcard t d) Hinv) as H.
    rewrite insert_card_eq in H. cbn [term definition] in H.
    now rewrite Ct, Cd in H.
  - exists (stdout s4). cbn [stdout print_line print_and_log logger_debug with_deck].
    now rewrite <- app_assoc.
Qed.

(** A run of [_add]: two terms and one definition refused, then the card
    is added and one line is left to read. *)
Example add_scenario :
  _add ["A"; "B"; "C"; "1"; "3"; "zz"] (mkSession (ab_deck 1 2) [] [])
  = (Returned tt, ["zz"],
     mkSession
       (mkDeck [("A", "1"); ("B", "2"); ("C", "3")]
               [("1", "A"); ("2", "B"); ("3", "C")]
               [("A", 1); ("B", 2); ("C", 0)])
       ["The card:"; card_exists_message "A"; card_exists_message "B";
        "The definition of the card:"; definition_exists_message "1";
        added_message (mkFlashcard "C" "3"); ""]
       ["The card:"; "A"; card_exists_message "A"; "B"; card_exists_message "B"; "C";
        "The definition of the card:"; "1"; definition_exists_message "1"; "3";
        added_message (mkFlashcard "C" "3")]).
Proof. reflexivity. Qed.

(** X16.  [_remove] with a line to read returns, whatever the term, and
    keeps the invariants of the deck.  For a term of the deck it removes
    the card that [get_by_term] finds and prints that the card has been
    removed; for any other term it leaves the deck as it was and prints
    that there is no such card; an empty line follows, and the prompt, the
    term and the message go to the log. *)
Theorem remove_spec (t : string) (rest : list string) (s : Session) :
  Deck_inv (deck s) ->
  exists s',
    _remove (t :: rest) s = (Returned tt, rest, s') /\
    Deck_inv (deck s') /\
    (forall d, get (term_to_definition (deck s)) t = Some d ->
       remove_card (mkFlashcard t d) (deck s) = (Ok tt, deck s') /\
       contains (term_to_definition (deck s')) t = false /\
       stdout s' = stdout s ++ ["Which card?"; removed_message; ""] /\
       log s' = log s ++ ["Which card?"; t; removed_message]) /\
    (get (term_to_definition (deck s)) t = None ->
       deck s' = deck s /\
       stdout s' = stdout s ++ ["Which card?"; cannot_remove_message t; ""] /\
       log s' = log s ++ ["Which card?"; t; cannot_remove_message t]).
Proof.
  intros Hinv. unfold _remove, get_input_and_log, bind.
  cbn [deck logger_debug print_line]. rewrite get_by_term_eq.
  destruct (get (term_to_definition (deck s)) t) as [d|] eqn:E.
  - destruct (remove_card_inv (deck s) (mkFlashcard t d) Hinv E)
      as [self' [Hrm [Hinv' [Hgone _]]]].
    rewrite Hrm. eexists. split; [reflexivity|].
    cbn [deck stdout log print_line print_and_log logger_debug with_deck].
    split; [exact Hinv'|]. split; [|discriminate].
    intros d' [= <-]. split; [exact Hrm|].
    split; [now apply contains_false_get|].
    now rewrite <- !app_assoc.
  - eexists. split; [reflexivity|].
    cbn [deck stdout log print_line print_and_log logger_debug with_deck].
    split; [exact Hinv|]. split; [discriminate|].
    intros _. split; [reflexivity|]. now rewrite <- !app_assoc.
Qed.

Lemma remove_spec_witness :
  exists s',
    _remove ["A"; "q"] (mkSession (ab_deck 1 2) [] []) = (Returned tt, ["q"], s') /\
    stdout s' = ["Which card?"; removed_message; ""] /\
    contains (term_to_definition (deck s')) "A" = false.
Proof.
  destruct (remove_spec "A" ["q"] (mkSession (ab_deck 1 2) [] []))
    as [s' [E [_ [H _]]]].
  - apply Deck_invb_sound. reflexivity.
  - exists s'. split; [exact E|].
    destruct (H "1" eq_refl) as [_ [Hc [Hout _]]]. split; [exact Hout | exact Hc].
Defined.

(* ================================================================== *)
(** ** Sizes and hints *)

Lemma same_members_length {A} (l1 l2 : list A) :
  NoDup l1 -> NoDup l2 -> (forall x, In x l1 <-> In x l2) ->
  List.length l1 = List.length l2.
Proof.
  intros H1 H2 H.
  assert (L1 : (List.length l1 <= List.length l2)%nat)
    by (apply NoDup_incl_length; [exact H1 | intros x Hx; now apply H]).
  assert (L2 : (List.length l2 <= List.length l1)%nat)
    by (apply NoDup_incl_length; [exact H2 | intros x Hx; now apply H]).
  lia.
Qed.

(** X17.  Under the invariants the three dictionaries have the same
    size: [len(deck)], the number of terms, is also the number of
    definitions in the index and the number of counts. *)
Theorem sizes_agree (self : Deck) :
  Deck_inv self ->
  deck_len self = len (definition_to_term self) /\
  deck_len self = len (term_to_mistakes self).
Proof.
  intros Hinv. pose proof (definitions_distinct self Hinv) as Hd.
  destruct Hinv as [[Hok1 [Hok2 Hok3]] Hinverse Hkeys].
  unfold deck_len, len. split.
  - rewrite <- (length_map snd (term_to_definition self)).
    rewrite <- (length_map fst (definition_to_term self)).
    apply same_members_length; [exact Hd | exact Hok2 |].
    intros d. fold (keys (definition_to_term self)).
    rewrite <- contains_In, (definition_known self d Hinverse). split.
    + intros H. apply in_map_iff in H. destruct H as [[t d'] [E Hin]].
      simpl in E. subst d'. exists t. now apply In_get.
    + intros [t H]. apply get_Some_In in H.
      change d with (snd (t, d)). now apply in_map.
  - rewrite <- (length_map fst (term_to_definition self)).
    rewrite <- (length_map fst (term_to_mistakes self)).
    apply same_members_length; [exact Hok1 | exact Hok3 |].
    intros t. fold (keys (term_to_definition self)) (keys (term_to_mistakes self)).
    now rewrite <- !contains_In, (Hkeys t).
Qed.

Lemma sizes_agree_witness :
  deck_len (ab_deck 5 7) = len (definition_to_term (ab_deck 5 7)) /\
  deck_len (ab_deck 5 7) = len (term_to_mistakes (ab_deck 5 7)).
Proof. apply sizes_agree. apply Deck_invb_sound. reflexivity. Defined.

(** X18.  When the indices are inverse and the card asked is a card of
    the deck, the term that [ask] returns with a wrong answer is never
    the card's own term: it is the term of another card, whose definition
    is the answer. *)
Theorem ask_hint_other_card (self self' : Deck) (flashcard : Flashcard)
    (answer : string) (hint : option string) :
  inverse self ->
  get (term_to_definition self) (term flashcard) = Some (definition flashcard) ->
  answer <> definition flashcard ->
  ask flashcard answer self = (Ok (false, hint), self') ->
  forall t, hint = Some t ->
    t <> term flashcard /\ get (term_to_definition self) t = Some answer.
Proof.
  intros Hinv Hcard Hne. rewrite (ask_wrong _ _ _ Hne).
  destruct (get (term_to_mistakes self) (term flashcard)); [|discriminate].
  intros [= <- _] t Ht. apply Hinv in Ht. split; [|exact Ht].
  intros ->. congruence.
Qed.

Lemma ask_hint_other_card_witness :
  "B" <> "A" /\ get (term_to_definition (ab_deck 5 7)) "B" = Some "2".
Proof.
  apply (ask_hint_other_card (ab_deck 5 7) (ab_deck 6 7) (mkFlashcard "A" "1")
           "2" (Some "B")).
  - apply inverseb_sound. reflexivity.
  - reflexivity.
  - discriminate.
  - reflexivity.
  - reflexivity.
Defined.

(* ================================================================== *)
(** ** Where the lost invariant shows *)

Lemma twin_deck_reachable : reachable twin_deck.
Proof.
  change twin_deck with (snd (run (Import_deck twin_import) empty_deck)).
  apply reach_call; [apply reach_init | apply okb_ok; reflexivity].
Qed.

Lemma triple_deck_reachable : reachable triple_deck.
Proof.
  change triple_deck with (snd (run (Import_deck triple_import) empty_deck)).
  apply reach_call; [apply reach_init | apply okb_ok; reflexivity].
Qed.

Lemma orphan_deck_reachable : reachable orphan_deck.
Proof.
  change orphan_deck with (snd (run (Remove_card (mkFlashcard "A" "x")) triple_deck)).
  apply reach_call; [exact triple_deck_reachable | exact I].
Qed.

(** C3, at the input where the code departs from it.  The deck left by
    the import of [{"A": ["x", 0], "B": ["x", 0]}] into [Deck()] holds the
    cards [A] and [B] with one definition.  Importing the empty snapshot
    into it returns 0 and puts [A] back, but not [B]: [insert_card]
    refuses [B] for the definition that [A] has just brought back, though
    [B] meets no imported term and no imported definition.  So it does not
    hold of every reachable deck that the old cards which collide with
    nothing imported are in the deck after the import. *)
Theorem import_deck_drops_uncollided :
  reachable twin_deck /\
  args_ok (Import_deck empty) /\
  get (term_to_definition twin_deck) "B" = Some "x" /\
  collides empty ("B", "x") = false /\
  import_deck empty twin_deck
  = (Ok 0%nat, mkDeck [("A", "x")] [("x", "A")] [("A", 0)]) /\
  get (term_to_definition (snd (import_deck empty twin_deck))) "B" = None /\
  ~ (forall (self : Deck) (json_string : snapshot) (t d : string),
       reachable self -> ok json_string ->
       get (term_to_definition self) t = Some d ->
       collides json_string (t, d) = false ->
       get (term_to_definition (snd (import_deck json_string self))) t = Some d).
Proof.
  split; [exact twin_deck_reachable|].
  split; [constructor|].
  split; [reflexivity|]. split; [reflexivity|]. split; [reflexivity|].
  split; [reflexivity|].
  intros H.
  specialize (H twin_deck empty "B" "x" twin_deck_reachable).
  assert (Hok : ok (empty : snapshot)) by constructor.
  specialize (H Hok eq_refl eq_refl). discriminate.
Qed.

(** C4, at the input where the code departs from it.  [Deck()] imports
    [{"A": ["x", 0], "B": ["x", 0], "C": ["y", 0]}], and the card that
    [get_by_term] returns for [A] is removed, which takes the definition
    ["x"] out of the index.  In the deck that is left every term has a
    count and the term [B] has the definition ["x"]; yet [ask] on the card
    of [C] with the answer ["x"] returns [False] with [None], not with
    [B], after it has counted the mistake. *)
Theorem ask_hint_misses_card :
  run (Import_deck triple_import) empty_deck = (None, triple_deck) /\
  get_by_term "A" triple_deck = (Ok (mkFlashcard "A" "x"), triple_deck) /\
  run (Remove_card (mkFlashcard "A" "x")) triple_deck = (None, orphan_deck) /\
  reachable orphan_deck /\
  same_keys orphan_deck /\
  get_by_term "C" orphan_deck = (Ok (mkFlashcard "C" "y"), orphan_deck) /\
  get (term_to_definition orphan_deck) "B" = Some "x" /\
  ask (mkFlashcard "C" "y") "x" orphan_deck
  = (Ok (false, None),
     mkDeck [("B", "x"); ("C", "y")] [("y", "C")] [("B", 0); ("C", 1)]) /\
  ~ (forall (self : Deck) (flashcard : Flashcard) (answer t : string),
       reachable self ->
       contains (term_to_definition self) (term flashcard) = true ->
       answer <> definition flashcard ->
       get (term_to_definition self) t = Some answer ->
       exists t' self', ask flashcard answer self = (Ok (false, Some t'), self')).
Proof.
  split; [reflexivity|]. split; [reflexivity|]. split; [reflexivity|].
  split; [exact orphan_deck_reachable|].
  split; [apply same_keysb_sound; reflexivity|].
  split; [reflexivity|]. split; [reflexivity|]. split; [reflexivity|].
  intros H.
  destruct (H orphan_deck (mkFlashcard "C" "y") "x" "B" orphan_deck_reachable)
    as [t' [self' E]]; [reflexivity | discriminate | reflexivity |].
  discriminate.
Qed.
